(** * WebSocket handshake and framing of [server/index.js]

    A shallow embedding of the three functions of the server
    ([generateAcceptKey], [parseFrame], [sendMessage]) together with the
    parts of the JavaScript and Node.js run time they rely on: UTF-16
    strings, [Buffer]s and their views, the UTF-8 codec behind
    [Buffer.from(s, "utf8")] and [buf.toString()], SHA-1 and base64 behind
    [crypto.createHash("sha1") ... digest("base64")]. *)

From Stdlib Require Import ZArith Lia.
From stdpp Require Import list strings gmap.

Local Open Scope Z_scope.

(** ** JavaScript values *)

(** A JavaScript string is a sequence of UTF-16 code units. *)
Abbreviation jsstring := (list Z).

(** A [Buffer] is a sequence of bytes (each stored value is in 0..255). *)
Abbreviation bytes := (list Z).

Definition is_byte (b : Z) : Prop := 0 <= b < 256.
Definition is_unit (c : Z) : Prop := 0 <= c < 65536.

(** The code units of an ASCII literal of the source. *)
Definition lit (s : string) : jsstring :=
  (fun a => Z.of_N (Ascii.N_of_ascii a)) <$> String.list_ascii_of_string s.

(** The two values a header lookup [req.headers[name]] can give. *)
Inductive jsvalue : Type :=
| JSUndefined
| JSString (s : jsstring).

(** [ToString] on those values. *)
Definition js_to_string (v : jsvalue) : jsstring :=
  match v with
  | JSUndefined => lit "undefined"
  | JSString s => s
  end.

(** [v + s] where [s] is a string: string concatenation after [ToString]. *)
Definition js_add (v : jsvalue) (s : jsstring) : jsstring :=
  js_to_string v ++ s.

(** The number a typed-array read gives to a bitwise operator:
    [undefined] (index out of range) becomes 0 under [ToInt32]. *)
Definition to_int32 (v : option Z) : Z := default 0 v.

(** Storing into a [Uint8Array] keeps the low eight bits. *)
Definition to_uint8 (x : Z) : Z := x mod 256.

(** How a call ends: with a value, or with an exception of some name. *)
Inductive outcome (A : Type) : Type :=
| Returned (a : A)
| Thrown (name : string).
Arguments Returned {A} a.
Arguments Thrown {A} name.

#[global] Instance outcome_ret : MRet outcome := fun A a => Returned a.
#[global] Instance outcome_bind : MBind outcome := fun A B k o =>
  match o with
  | Returned a => k a
  | Thrown e => Thrown e
  end.

(** ** UTF-8, as Node encodes and decodes it *)

Module Utf8.

Definition is_high (c : Z) : bool := (0xD800 <=? c) && (c <=? 0xDBFF).
Definition is_low (c : Z) : bool := (0xDC00 <=? c) && (c <=? 0xDFFF).

(** The code point of a surrogate pair. *)
Definition pair_cp (hi lo : Z) : Z :=
  0x10000 + (hi - 0xD800) * 1024 + (lo - 0xDC00).

(** The UTF-8 bytes of one code point. *)
Definition enc_cp (cp : Z) : bytes :=
  if cp <? 0x80 then [cp]
  else if cp <? 0x800 then [0xC0 + cp / 64; 0x80 + cp mod 64]
  else if cp <? 0x10000 then
    [0xE0 + cp / 4096; 0x80 + (cp / 64) mod 64; 0x80 + cp mod 64]
  else
    [0xF0 + cp / 262144; 0x80 + (cp / 4096) mod 64;
     0x80 + (cp / 64) mod 64; 0x80 + cp mod 64].

(** U+FFFD, which stands for anything that is not well formed. *)
Definition replacement : Z := 0xFFFD.

(** [Buffer.from(s, "utf8")]: surrogate pairs become one four-byte
    sequence, a surrogate on its own becomes U+FFFD. *)
Fixpoint encode (s : jsstring) : bytes :=
  match s with
  | [] => []
  | c :: rest =>
      if is_high c then
        match rest with
        | d :: rest' =>
            if is_low d then enc_cp (pair_cp c d) ++ encode rest'
            else enc_cp replacement ++ encode rest
        | [] => enc_cp replacement
        end
      else if is_low c then enc_cp replacement ++ encode rest
      else enc_cp c ++ encode rest
  end.

(** The decoder's state between two bytes: the code point so far, the
    continuation bytes seen and needed, and the range allowed for the next
    continuation byte. *)
Record dstate : Type := DState {
  d_cp : Z; d_seen : nat; d_needed : nat; d_lower : Z; d_upper : Z
}.

Definition d_init : dstate := DState 0 0 0 0x80 0xBF.

(** The code units of a decoded code point. *)
Definition units_of_cp (cp : Z) : jsstring :=
  if cp <? 0x10000 then [cp]
  else [0xD800 + (cp - 0x10000) / 1024; 0xDC00 + (cp - 0x10000) mod 1024].

(** A byte met when no sequence is open. *)
Definition decode_lead (b : Z) : jsstring * dstate :=
  if b <=? 0x7F then ([b], d_init)
  else if (0xC2 <=? b) && (b <=? 0xDF) then
    ([], DState (b mod 32) 0 1 0x80 0xBF)
  else if (0xE0 <=? b) && (b <=? 0xEF) then
    ([], DState (b mod 16) 0 2
           (if b =? 0xE0 then 0xA0 else 0x80)
           (if b =? 0xED then 0x9F else 0xBF))
  else if (0xF0 <=? b) && (b <=? 0xF4) then
    ([], DState (b mod 8) 0 3
           (if b =? 0xF0 then 0x90 else 0x80)
           (if b =? 0xF4 then 0x8F else 0xBF))
  else ([replacement], d_init).

(** One byte of input. A byte that cannot continue the open sequence
    closes it with U+FFFD and is then read again as a lead byte. *)
Definition decode_step (st : dstate) (b : Z) : jsstring * dstate :=
  if (d_needed st =? 0)%nat then decode_lead b
  else if (d_lower st <=? b) && (b <=? d_upper st) then
    let cp := d_cp st * 64 + b mod 64 in
    if (S (d_seen st) =? d_needed st)%nat then (units_of_cp cp, d_init)
    else ([], DState cp (S (d_seen st)) (d_needed st) 0x80 0xBF)
  else
    let '(out, st') := decode_lead b in (replacement :: out, st').

Fixpoint decode_from (st : dstate) (bs : bytes) : jsstring :=
  match bs with
  | [] => if (d_needed st =? 0)%nat then [] else [replacement]
  | b :: bs' =>
      let '(out, st') := decode_step st b in out ++ decode_from st' bs'
  end.

(** [buf.toString()], which is [buf.toString("utf8")]. *)
Definition decode (bs : bytes) : jsstring := decode_from d_init bs.

(** A string is well formed when every code unit is in range and every
    surrogate is half of a pair. *)
Fixpoint well_formed (s : jsstring) : bool :=
  match s with
  | [] => true
  | c :: rest =>
      if is_high c then
        match rest with
        | d :: rest' => is_low d && well_formed rest'
        | [] => false
        end
      else (0 <=? c) && (c <? 65536) && negb (is_low c) && well_formed rest
  end.

(** A Unicode scalar value: a code point that is not a surrogate. *)
Definition scalar (cp : Z) : Prop :=
  0 <= cp < 0x110000 /\ ~ (0xD800 <= cp <= 0xDFFF).

End Utf8.

(** ** Buffers *)

Module Buf.

(** [Buffer.alloc(n)]: [n] zero bytes. *)
Definition alloc (n : nat) : bytes := replicate n 0.

(** [buf[i] = x]: the low eight bits are stored; an index past the end
    is ignored. *)
Definition set (buf : bytes) (i : nat) (x : Z) : bytes :=
  <[i := to_uint8 x]> buf.

(** [src.copy(target, targetStart)]: bytes that do not fit are dropped. *)
Definition copy (src target : bytes) (targetStart : nat) : bytes :=
  list_inserts targetStart src target.

(** [buf.writeUInt16BE(value, offset)] checks the value and the offset. *)
Definition writeUInt16BE (buf : bytes) (value : Z) (offset : nat)
  : outcome bytes :=
  if (0 <=? value) && (value <=? 0xFFFF)
     && (offset + 2 <=? length buf)%nat then
    Returned (set (set buf offset (Z.shiftr value 8)) (S offset) value)
  else Thrown "ERR_OUT_OF_RANGE".

(** The eight bytes of a 64-bit value, most significant first. *)
Definition be64 (value : Z) : bytes :=
  (fun k : nat => Z.land (Z.shiftr value (8 * (7 - Z.of_nat k))) 0xFF)
    <$> seq 0 8.

(** [buf.writeBigUInt64BE(value, offset)]. *)
Definition writeBigUInt64BE (buf : bytes) (value : Z) (offset : nat)
  : outcome bytes :=
  if (0 <=? value) && (value <? 2 ^ 64)
     && (offset + 8 <=? length buf)%nat then
    Returned (list_inserts offset (be64 value) buf)
  else Thrown "ERR_OUT_OF_RANGE".

(** A [Buffer] made by [slice] owns no bytes: it is a window on the
    memory of the buffer it was cut from. *)
Record view : Type := View { v_off : nat; v_len : nat }.

(** [buf.slice(start, end)] on a buffer of [len] bytes; both ends are
    clamped to the buffer. *)
Definition slice (len start end_ : nat) : view :=
  let s := (start `min` len)%nat in
  let e := (end_ `min` len)%nat in
  View s (e - s).

(** [v[i]], [undefined] outside the window. *)
Definition get (mem : bytes) (v : view) (i : nat) : option Z :=
  if (i <? v_len v)%nat then mem !! (v_off v + i)%nat else None.

(** [v[i] = x] writes through to the shared memory. *)
Definition put (mem : bytes) (v : view) (i : nat) (x : Z) : bytes :=
  if (i <? v_len v)%nat then set mem (v_off v + i) x else mem.

(** The bytes seen through a window. *)
Definition contents (mem : bytes) (v : view) : bytes :=
  take (v_len v) (drop (v_off v) mem).

End Buf.

(** ** [parseFrame] *)

(** The loop [for (i = 0; i < payloadData.length; i++)
    payloadData[i] ^= maskingKey[i % 4]] with [n] iterations left, on the
    memory both windows look at. *)
Fixpoint unmask_loop (n i : nat) (maskingKey payloadData : Buf.view)
    (mem : bytes) : bytes :=
  match n with
  | O => mem
  | S n' =>
      let x := Z.lxor (to_int32 (Buf.get mem payloadData i))
                      (to_int32 (Buf.get mem maskingKey (i mod 4))) in
      unmask_loop n' (S i) maskingKey payloadData (Buf.put mem payloadData i x)
  end.

(** The flag and the offset [parseFrame] reads from the second byte. *)
Definition frame_isMasked (buffer : bytes) : bool :=
  Z.land (to_int32 (buffer !! 1%nat)) 128 =? 128.

Definition frame_payloadLength (buffer : bytes) : Z :=
  Z.land (to_int32 (buffer !! 1%nat)) 127.

Definition frame_dataStart (buffer : bytes) : nat :=
  if frame_payloadLength buffer =? 126 then (2 + 2)%nat
  else if frame_payloadLength buffer =? 127 then (2 + 8)%nat
  else 2%nat.

(** [parseFrame(buffer)]: the returned string, and the bytes of the
    caller's buffer when the call is over. *)
Definition parseFrame_run (buffer : bytes) : jsstring * bytes :=
  let isMasked := frame_isMasked buffer in
  let dataStart := frame_dataStart buffer in
  let maskingKey :=
    if isMasked
    then Some (Buf.slice (length buffer) dataStart (dataStart + 4))
    else None in
  let payloadData :=
    Buf.slice (length buffer)
              (dataStart + (if isMasked then 4 else 0)) (length buffer) in
  let mem :=
    match maskingKey with
    | Some key => unmask_loop (Buf.v_len payloadData) 0 key payloadData buffer
    | None => buffer
    end in
  (Utf8.decode (Buf.contents mem payloadData), mem).

Definition parseFrame (buffer : bytes) : outcome jsstring :=
  Returned (parseFrame_run buffer).1.

(** The caller's buffer after [parseFrame(buffer)]. *)
Definition parseFrame_buffer (buffer : bytes) : bytes :=
  (parseFrame_run buffer).2.

(** ** [sendMessage] *)

(** [Math.random()] gives a double in [0, 1); every such double is
    [k / 2^1074] for an integer [0 <= k < 2^1074], and both the product
    with 256 and [Math.floor] are exact. *)
Definition random_denominator : Z := 2 ^ 1074.
Definition is_random (k : Z) : Prop := 0 <= k < random_denominator.

(** [Math.floor(Math.random() * 256)] for the draw [k]. *)
Definition random_byte (k : Z) : Z := (k * 256) / random_denominator.

(** [for (i = 0; i < 4; i++) maskKey[i] = Math.floor(Math.random() * 256)],
    where [rnd i] is the [i]-th draw. *)
Fixpoint fill_mask (n i : nat) (rnd : nat -> Z) (maskKey : bytes) : bytes :=
  match n with
  | O => maskKey
  | S n' => fill_mask n' (S i) rnd (Buf.set maskKey i (random_byte (rnd i)))
  end.

(** [for (i = 0; i < payload.length; i++) payload[i] ^= maskKey[i % 4]]. *)
Fixpoint mask_loop (n i : nat) (maskKey payload : bytes) : bytes :=
  match n with
  | O => payload
  | S n' =>
      let x := Z.lxor (to_int32 (payload !! i))
                      (to_int32 (maskKey !! (i mod 4)%nat)) in
      mask_loop n' (S i) maskKey (Buf.set payload i x)
  end.

(** The body of [sendMessage] up to [socket.write(frame)], with the local
    constant [isClient] as a parameter: the frame it builds. The program
    only ever runs it with [false]; see [sendMessage] below. *)
Definition buildFrame (isClient : bool) (rnd : nat -> Z) (message : jsstring)
  : outcome bytes :=
  let maskingLength : nat := if isClient then 4%nat else 0%nat in
  let maskingFlag : Z := if isClient then 0x80 else 0 in
  let payload := Utf8.encode message in
  let payloadLength := length payload in
  frame ←
    (if Z.of_nat payloadLength <? 126 then
       let frame := Buf.alloc (2 + maskingLength + payloadLength) in
       mret (Buf.set frame 1 (Z.lor maskingFlag (Z.of_nat payloadLength)))
     else if Z.of_nat payloadLength <? 65536 then
       let frame := Buf.alloc (4 + maskingLength + payloadLength) in
       let frame := Buf.set frame 1 (Z.lor maskingFlag 126) in
       Buf.writeUInt16BE frame (Z.of_nat payloadLength) 2
     else
       let frame := Buf.alloc (10 + maskingLength + payloadLength) in
       let frame := Buf.set frame 1 (Z.lor maskingFlag 127) in
       Buf.writeBigUInt64BE frame (Z.of_nat payloadLength) 2);
  let frame := Buf.set frame 0 0x81 in
  let '(frame, payload) :=
    if isClient then
      let maskKey := fill_mask 4 0 rnd (Buf.alloc 4) in
      let frame :=
        Buf.copy maskKey frame (length frame - payloadLength - maskingLength) in
      (frame, mask_loop (length payload) 0 maskKey payload)
    else (frame, payload) in
  mret (Buf.copy payload frame (length frame - payloadLength)).

(** [sendMessage(socket, message)]: what is written to the socket.
    [isClient] is the constant [false]. *)
Definition sendMessage (rnd : nat -> Z) (message : jsstring) : outcome bytes :=
  buildFrame false rnd message.

(** ** SHA-1 (FIPS 180-4) *)

Module Sha1.

Definition add32 (x y : Z) : Z := (x + y) mod 2 ^ 32.
Definition not32 (x : Z) : Z := Z.lxor x 0xFFFFFFFF.
Definition rotl (n x : Z) : Z :=
  Z.lor (Z.shiftl x n mod 2 ^ 32) (Z.shiftr x (32 - n)).

Definition f (t b c d : Z) : Z :=
  if t <? 20 then Z.lor (Z.land b c) (Z.land (not32 b) d)
  else if t <? 40 then Z.lxor (Z.lxor b c) d
  else if t <? 60 then
    Z.lor (Z.lor (Z.land b c) (Z.land b d)) (Z.land c d)
  else Z.lxor (Z.lxor b c) d.

Definition K (t : Z) : Z :=
  if t <? 20 then 0x5A827999
  else if t <? 40 then 0x6ED9EBA1
  else if t <? 60 then 0x8F1BBCDC
  else 0xCA62C1D6.

Definition state : Type := Z * Z * Z * Z * Z.

Definition H0 : state :=
  (0x67452301, 0xEFCDAB89, 0x98BADCFE, 0x10325476, 0xC3D2E1F0).

(** [n] rounds from round [t]; [w] holds the sixteen schedule words
    from [W t] on. *)
Fixpoint rounds (n : nat) (t : Z) (w : list Z) (st : state) : state :=
  match n with
  | O => st
  | S n' =>
      let '(a, b, c, d, e) := st in
      let wt := nth 0 w 0 in
      let tmp :=
        add32 (add32 (add32 (add32 (rotl 5 a) (f t b c d)) e) (K t)) wt in
      let next :=
        rotl 1 (Z.lxor (Z.lxor (Z.lxor (nth 13 w 0) (nth 8 w 0))
                               (nth 2 w 0)) wt) in
      rounds n' (t + 1) (tail w ++ [next]) (tmp, a, rotl 30 b, c, d)
  end.

(** The sixteen big-endian words of a 64-byte block. *)
Fixpoint words (n : nat) (block : bytes) : list Z :=
  match n with
  | O => []
  | S n' =>
      match block with
      | b0 :: b1 :: b2 :: b3 :: rest =>
          (((b0 * 256 + b1) * 256 + b2) * 256 + b3) :: words n' rest
      | _ => []
      end
  end.

Definition compress (h : state) (block : bytes) : state :=
  let '(a, b, c, d, e) := rounds 80 0 (words 16 block) h in
  let '(h0, h1, h2, h3, h4) := h in
  (add32 h0 a, add32 h1 b, add32 h2 c, add32 h3 d, add32 h4 e).

Fixpoint blocks (n : nat) (msg : bytes) (h : state) : state :=
  match n with
  | O => h
  | S n' => blocks n' (drop 64 msg) (compress h (take 64 msg))
  end.

(** The message, a 1 bit, zeros up to 56 modulo 64, and the bit length
    on eight bytes. *)
Definition pad (msg : bytes) : bytes :=
  let len := Z.of_nat (length msg) in
  msg ++ [0x80] ++ replicate (Z.to_nat ((55 - len) mod 64)) 0
      ++ Buf.be64 ((8 * len) mod 2 ^ 64).

Definition be32 (x : Z) : bytes :=
  [x / 16777216 mod 256; x / 65536 mod 256; x / 256 mod 256; x mod 256].

Definition digest (msg : bytes) : bytes :=
  let padded := pad msg in
  let '(h0, h1, h2, h3, h4) := blocks (length padded / 64) padded H0 in
  be32 h0 ++ be32 h1 ++ be32 h2 ++ be32 h3 ++ be32 h4.

End Sha1.

(** ** Base64 (RFC 4648, with padding) *)

Module Base64.

Definition alphabet : jsstring :=
  lit "ABCDEFGHIJKLMNOPQRSTUVWXYZabcdefghijklmnopqrstuvwxyz0123456789+/".

Definition padding : Z := 61.

(** The character of a six-bit value. *)
Definition char (i : Z) : Z := nth (Z.to_nat i) alphabet padding.

Fixpoint encode (bs : bytes) : jsstring :=
  match bs with
  | [] => []
  | [b0] =>
      [char (b0 / 4); char (b0 mod 4 * 16); padding; padding]
  | [b0; b1] =>
      [char (b0 / 4); char (b0 mod 4 * 16 + b1 / 16);
       char (b1 mod 16 * 4); padding]
  | b0 :: b1 :: b2 :: rest =>
      [char (b0 / 4); char (b0 mod 4 * 16 + b1 / 16);
       char (b1 mod 16 * 4 + b2 / 64); char (b2 mod 64)] ++ encode rest
  end.

Definition is_char (c : Z) : bool := existsb (Z.eqb c) alphabet.

(** Groups of four characters; only the last group may end in one or
    two padding characters. *)
Fixpoint valid (s : jsstring) : bool :=
  match s with
  | [] => true
  | [a; b; c; d] =>
      is_char a && is_char b
      && ((is_char c && (is_char d || (d =? padding)))
          || ((c =? padding) && (d =? padding)))
  | a :: b :: c :: d :: rest =>
      is_char a && is_char b && is_char c && is_char d && valid rest
  | _ => false
  end.

End Base64.

(** ** The handshake *)

(** A [crypto.createHash("sha1")] object: the data fed to it so far. *)
Record hash : Type := Hash { pending : bytes }.

Definition createHash_sha1 : hash := Hash [].

(** [h.update(data)] with a string: its UTF-8 bytes are appended. *)
Definition hash_update (h : hash) (data : jsstring) : hash :=
  Hash (pending h ++ Utf8.encode data).

(** [h.digest("base64")]. *)
Definition hash_digest_base64 (h : hash) : jsstring :=
  Base64.encode (Sha1.digest (pending h)).

Definition magic_guid : jsstring :=
  lit "258EAFA5-E914-47DA-95CA-C5AB0DC85B11".

Definition generateAcceptKey (secWebSocketKey : jsvalue) : jsstring :=
  let sha1 := createHash_sha1 in
  let sha1 := hash_update sha1 (js_add secWebSocketKey magic_guid) in
  hash_digest_base64 sha1.

(** What the upgrade handler does to the socket. *)
Inductive socket_op : Type :=
| SocketWrite (data : jsstring)
| SocketDestroy.

Definition crlf : jsstring := [13; 10].

(** [lines.join("\r\n")]. *)
Fixpoint join_crlf (lines : list jsstring) : jsstring :=
  match lines with
  | [] => []
  | [l] => l
  | l :: ls => l ++ crlf ++ join_crlf ls
  end.

(** [req.headers[name]]. *)
Definition header (headers : gmap string jsstring) (name : string) : jsvalue :=
  match headers !! name with
  | Some v => JSString v
  | None => JSUndefined
  end.

(** The upgrade handler, up to the handshake response it writes. *)
Definition upgrade (url : jsstring) (headers : gmap string jsstring)
  : outcome (list socket_op) :=
  if bool_decide (url = lit "/ws") then
    let secWebSocketKey := header headers "sec-websocket-key" in
    let secWebSocketAccept := generateAcceptKey secWebSocketKey in
    let responseHeaders :=
      [ lit "HTTP/1.1 101 Switching Protocols";
        lit "Upgrade: websocket";
        lit "Connection: Upgrade";
        lit "Sec-WebSocket-Accept: " ++ secWebSocketAccept;
        [];
        [] ] in
    Returned [SocketWrite (join_crlf responseHeaders)]
  else
    Returned [SocketWrite (lit "HTTP/1.1 404 Not Found" ++ crlf ++ crlf);
              SocketDestroy].

(** ** The frame format, as the protocol states it *)

(** A big-endian unsigned integer. *)
Definition be_value (bs : bytes) : Z :=
  fold_left (fun acc b => acc * 256 + b) bs 0.

(** The payload length a frame declares: the seven-bit indicator, or the
    two or eight bytes after it. *)
Definition declared_payload_length (buffer : bytes) : Z :=
  let indicator := frame_payloadLength buffer in
  if indicator =? 126 then be_value (take 2 (drop 2 buffer))
  else if indicator =? 127 then be_value (take 8 (drop 2 buffer))
  else indicator.

(** Where the payload starts: after the length field and the masking key. *)
Definition payload_start (buffer : bytes) : nat :=
  (frame_dataStart buffer + (if frame_isMasked buffer then 4 else 0))%nat.

(** Header plus payload. *)
Definition declared_frame_length (buffer : bytes) : Z :=
  Z.of_nat (payload_start buffer) + declared_payload_length buffer.

(** The masking key of a masked frame. *)
Definition masking_key (buffer : bytes) : bytes :=
  take 4 (drop (frame_dataStart buffer) buffer).

(** XOR with the key, repeated every four bytes. *)
Definition xor_mask (key payload : bytes) : bytes :=
  imap (fun i b => Z.lxor b (to_int32 (key !! (i mod 4)%nat))) payload.

(** The payload bytes [data], unmasked when the frame is masked. *)
Definition unmasked (buffer data : bytes) : bytes :=
  if frame_isMasked buffer then xor_mask (masking_key buffer) data else data.

(** The header of a frame of [n] payload bytes. *)
Definition length_field (n : Z) : bytes :=
  if n <? 126 then [n]
  else if n <? 65536 then [126; n / 256; n mod 256]
  else 127 :: Buf.be64 n.

Definition frame_header (masked : bool) (n : Z) : bytes :=
  match length_field n with
  | ind :: ext => 0x81 :: ((if masked then 128 else 0) + ind) :: ext
  | [] => []
  end.

(** The four bytes drawn from [Math.random]. *)
Definition drawn_key (rnd : nat -> Z) : bytes :=
  [random_byte (rnd 0%nat); random_byte (rnd 1%nat);
   random_byte (rnd 2%nat); random_byte (rnd 3%nat)].

(** The payload of the frame at the start of [buffer]: as many bytes as
    the frame declares, after the header. *)
Definition frame_payload (buffer : bytes) : bytes :=
  take (Z.to_nat (declared_payload_length buffer))
       (drop (payload_start buffer) buffer).

(** The string does not start with the second half of a surrogate pair. *)
Definition head_not_low (t : jsstring) : Prop :=
  match t with
  | [] => True
  | d :: _ => Utf8.is_low d = false
  end.

(** A text message: well-formed UTF-16, no longer than a string can be. *)
Definition is_text (m : jsstring) : Prop :=
  Utf8.well_formed m = true /\ Z.of_nat (length m) < 2 ^ 53.


(** The "data" listener of an upgraded socket: what [parseFrame(data)]
    returns is logged, then "test" is sent. The result is what is logged,
    what is written to the socket, and the received buffer afterwards. *)
Definition on_data (rnd : nat -> Z) (data : bytes)
  : outcome (jsstring * bytes * bytes) :=
  let '(message, data') := parseFrame_run data in
  frame ← sendMessage rnd (lit "test");
  mret (message, frame, data').

(** ** Sample inputs *)

(** The masked frame of "Hello" from RFC 6455, section 5.7. *)
Definition hello_frame : bytes :=
  [0x81; 0x85; 0x37; 0xfa; 0x21; 0x3d; 0x7f; 0x9f; 0x4d; 0x51; 0x58].

(** A header that declares five payload bytes, and one byte. *)
Definition short_frame : bytes := [0x81; 5; 72].

(** A complete frame of one payload byte, and one byte more. *)
Definition long_frame : bytes := [0x81; 1; 65; 66].


(** The letter "a", [n] times. *)
Definition a_times (n : Z) : jsstring := replicate (Z.to_nat n) 97.

(** * Properties *)

(** ** Test vectors *)

Example utf8_encode_euro : Utf8.encode [0x20AC] = [0xE2; 0x82; 0xAC].
Proof. reflexivity. Qed.

Example utf8_encode_pair :
  Utf8.encode [0xD83D; 0xDE00] = [0xF0; 0x9F; 0x98; 0x80].
Proof. reflexivity. Qed.

Example utf8_decode_pair :
  Utf8.decode [0xF0; 0x9F; 0x98; 0x80; 0x41] = [0xD83D; 0xDE00; 0x41].
Proof. reflexivity. Qed.

Example utf8_decode_truncated :
  Utf8.decode [0xE2; 0x82; 0x41; 0xC0] = [0xFFFD; 0x41; 0xFFFD].
Proof. reflexivity. Qed.

Example sendMessage_test :
  sendMessage (fun _ => 0) (lit "test") =
  Returned [0x81; 4; 116; 101; 115; 116].
Proof. reflexivity. Qed.

Example parseFrame_unmasked :
  parseFrame [0x81; 4; 116; 101; 115; 116] = Returned (lit "test").
Proof. reflexivity. Qed.

(** The masked frame of "Hello" from RFC 6455, section 5.7. *)
Example parseFrame_masked :
  parseFrame_run [0x81; 0x85; 0x37; 0xfa; 0x21; 0x3d;
                  0x7f; 0x9f; 0x4d; 0x51; 0x58] =
  (lit "Hello",
   [0x81; 0x85; 0x37; 0xfa; 0x21; 0x3d; 72; 101; 108; 108; 111]).
Proof. reflexivity. Qed.

Example sha1_abc :
  Sha1.digest (lit "abc") =
  [0xa9; 0x99; 0x3e; 0x36; 0x47; 0x06; 0x81; 0x6a; 0xba; 0x3e;
   0x25; 0x71; 0x78; 0x50; 0xc2; 0x6c; 0x9c; 0xd0; 0xd8; 0x9d].
Proof. vm_compute. reflexivity. Qed.

Example base64_foobar : Base64.encode (lit "fooba") = lit "Zm9vYmE=".
Proof. reflexivity. Qed.

Example accept_rfc :
  generateAcceptKey (JSString (lit "dGhlIHNhbXBsZSBub25jZQ==")) = lit "s3pPLMBiTxaQ9kYGzzhZRbK+xOo=".
Proof. vm_compute. reflexivity. Qed.

(** ** Arithmetic on bytes *)

(** Settle the comparisons of the goal that [lia] can decide. *)
Ltac zbool :=
  repeat match goal with
  | |- context [?a <? ?b] =>
      first [ rewrite (proj2 (Z.ltb_lt a b)) by lia
            | rewrite (proj2 (Z.ltb_ge a b)) by lia ]
  | |- context [?a <=? ?b] =>
      first [ rewrite (proj2 (Z.leb_le a b)) by lia
            | rewrite (proj2 (Z.leb_gt a b)) by lia ]
  | |- context [?a =? ?b] =>
      first [ rewrite (proj2 (Z.eqb_eq a b)) by lia
            | rewrite (proj2 (Z.eqb_neq a b)) by lia ]
  end.

Ltac divmod := Z.div_mod_to_equations; lia.

(** A property checked on 0 .. n-1 holds on that range. *)
Lemma range_check (P : Z -> bool) (n : nat) :
  forallb P (Z.of_nat <$> seq 0 n) = true ->
  forall i, 0 <= i < Z.of_nat n -> P i = true.
Proof.
  intros Hall i Hi. rewrite forallb_forall in Hall. apply Hall.
  apply in_map_iff. exists (Z.to_nat i). split; [lia|].
  apply in_seq. lia.
Qed.

Lemma land_127 b : 0 <= b -> Z.land b 127 = b mod 128.
Proof. intros _. exact (Z.land_ones b 7 ltac:(lia)). Qed.

Lemma land_255 b : 0 <= b -> Z.land b 255 = b mod 256.
Proof. intros _. exact (Z.land_ones b 8 ltac:(lia)). Qed.

Lemma land_128 b : 0 <= b < 256 -> Z.land b 128 = if b <? 128 then 0 else 128.
Proof.
  intros Hb.
  pose proof (range_check
    (fun b => Z.land b 128 =? (if b <? 128 then 0 else 128)) 256
    ltac:(vm_compute; reflexivity) b ltac:(lia)) as H.
  simpl in H. lia.
Qed.

Lemma lor_128 n : 0 <= n < 128 -> Z.lor 128 n = 128 + n.
Proof.
  intros Hn.
  pose proof (range_check (fun n => Z.lor 128 n =? 128 + n) 128
    ltac:(vm_compute; reflexivity) n ltac:(lia)) as H.
  simpl in H. lia.
Qed.

Lemma lxor_byte a b : is_byte a -> is_byte b -> is_byte (Z.lxor a b).
Proof.
  unfold is_byte. intros Ha Hb.
  assert (Hnn : 0 <= Z.lxor a b) by (apply Z.lxor_nonneg; lia).
  split; [done|].
  destruct (Z.eq_dec (Z.lxor a b) 0) as [->|Hne]; [lia|].
  change 256 with (2 ^ 8) in *.
  apply Z.log2_lt_pow2; [lia|].
  eapply Z.le_lt_trans; [apply Z.log2_lxor; lia|].
  apply Z.max_lub_lt.
  - destruct (Z.eq_dec a 0) as [->|]; [done|]. apply Z.log2_lt_pow2; lia.
  - destruct (Z.eq_dec b 0) as [->|]; [done|]. apply Z.log2_lt_pow2; lia.
Qed.

Lemma lxor_cancel a k : Z.lxor (Z.lxor a k) k = a.
Proof. by rewrite Z.lxor_assoc, Z.lxor_nilpotent, Z.lxor_0_r. Qed.

Lemma to_uint8_byte b : is_byte b -> to_uint8 b = b.
Proof. unfold is_byte, to_uint8. intros. by rewrite Z.mod_small. Qed.

Lemma to_uint8_is_byte x : is_byte (to_uint8 x).
Proof. unfold is_byte, to_uint8. divmod. Qed.

(** ** UTF-8: decoding undoes encoding *)

Module Utf8Facts.
Import Utf8.

Ltac dstep :=
  cbn [app decode_from decode_step d_needed d_init Nat.eqb
       d_lower d_upper d_seen d_cp andb];
  unfold decode_lead; zbool; cbn [andb].

Ltac zsplit :=
  repeat match goal with
  | |- context [if ?a =? ?b then _ else _] => destruct (Z.eqb_spec a b)
  end.

Lemma decode_enc_1 cp rest :
  0 <= cp < 0x80 ->
  decode_from d_init (enc_cp cp ++ rest)
  = units_of_cp cp ++ decode_from d_init rest.
Proof.
  intros H. unfold enc_cp, units_of_cp. zbool. dstep. reflexivity.
Qed.

Lemma decode_enc_2 cp rest :
  0x80 <= cp < 0x800 ->
  decode_from d_init (enc_cp cp ++ rest)
  = units_of_cp cp ++ decode_from d_init rest.
Proof.
  intros H. unfold enc_cp. zbool.
  assert (E : cp = cp / 64 * 64 + cp mod 64) by divmod.
  assert (0 <= cp / 64 < 32) by divmod.
  assert (0 <= cp mod 64 < 64) by divmod.
  set (a := cp / 64) in *. set (b := cp mod 64) in *.
  assert (Ha : (192 + a) mod 32 = a) by divmod.
  assert (Hb : (128 + b) mod 64 = b) by divmod.
  dstep. rewrite Ha. dstep. rewrite Hb.
  replace (a * 64 + b) with cp by lia. reflexivity.
Qed.

Lemma decode_enc_3 cp rest :
  0x800 <= cp < 0x10000 -> ~ (0xD800 <= cp <= 0xDFFF) ->
  decode_from d_init (enc_cp cp ++ rest)
  = units_of_cp cp ++ decode_from d_init rest.
Proof.
  intros H Hs. unfold enc_cp. zbool.
  assert (E : cp = cp / 4096 * 4096 + (cp / 64) mod 64 * 64 + cp mod 64)
    by divmod.
  assert (0 <= cp / 4096 < 16) by divmod.
  assert (0 <= (cp / 64) mod 64 < 64) by divmod.
  assert (0 <= cp mod 64 < 64) by divmod.
  set (a := cp / 4096) in *. set (b := (cp / 64) mod 64) in *.
  set (c := cp mod 64) in *.
  assert (Ha : (224 + a) mod 16 = a) by divmod.
  assert (Hb : (128 + b) mod 64 = b) by divmod.
  assert (Hc : (128 + c) mod 64 = c) by divmod.
  dstep. rewrite Ha.
  zsplit; dstep; rewrite Hb; dstep; rewrite Hc;
    replace ((a * 64 + b) * 64 + c) with cp by lia; reflexivity.
Qed.

Lemma decode_enc_4 cp rest :
  0x10000 <= cp < 0x110000 ->
  decode_from d_init (enc_cp cp ++ rest)
  = units_of_cp cp ++ decode_from d_init rest.
Proof.
  intros H. unfold enc_cp. zbool.
  assert (E : cp = cp / 262144 * 262144 + (cp / 4096) mod 64 * 4096
                   + (cp / 64) mod 64 * 64 + cp mod 64) by divmod.
  assert (0 <= cp / 262144 < 5) by divmod.
  assert (0 <= (cp / 4096) mod 64 < 64) by divmod.
  assert (0 <= (cp / 64) mod 64 < 64) by divmod.
  assert (0 <= cp mod 64 < 64) by divmod.
  set (a := cp / 262144) in *. set (b := (cp / 4096) mod 64) in *.
  set (c := (cp / 64) mod 64) in *. set (d := cp mod 64) in *.
  assert (Ha : (240 + a) mod 8 = a) by divmod.
  assert (Hb : (128 + b) mod 64 = b) by divmod.
  assert (Hc : (128 + c) mod 64 = c) by divmod.
  assert (Hd : (128 + d) mod 64 = d) by divmod.
  dstep. rewrite Ha.
  zsplit; dstep; rewrite Hb; dstep; rewrite Hc; dstep; rewrite Hd;
    replace (((a * 64 + b) * 64 + c) * 64 + d) with cp by lia;
    reflexivity.
Qed.

(** The decoder, started between two sequences, reads the encoding of a
    scalar value back and is again between two sequences. *)
Lemma decode_enc_cp cp rest :
  scalar cp ->
  decode_from d_init (enc_cp cp ++ rest)
  = units_of_cp cp ++ decode_from d_init rest.
Proof.
  intros [Hr Hs].
  destruct (Z_lt_dec cp 0x80); [apply decode_enc_1; lia|].
  destruct (Z_lt_dec cp 0x800); [apply decode_enc_2; lia|].
  destruct (Z_lt_dec cp 0x10000); [apply decode_enc_3; lia|].
  apply decode_enc_4; lia.
Qed.

Lemma is_high_spec c : is_high c = true <-> 0xD800 <= c <= 0xDBFF.
Proof. unfold is_high. lia. Qed.

Lemma is_low_spec c : is_low c = true <-> 0xDC00 <= c <= 0xDFFF.
Proof. unfold is_low. lia. Qed.

Lemma units_of_pair hi lo :
  is_high hi = true -> is_low lo = true ->
  scalar (pair_cp hi lo) /\ units_of_cp (pair_cp hi lo) = [hi; lo].
Proof.
  rewrite is_high_spec, is_low_spec. intros Hh Hl.
  unfold scalar, units_of_cp, pair_cp. split; [lia|].
  zbool. f_equal; [|f_equal]; divmod.
Qed.

Lemma units_of_bmp c : 0 <= c < 0x10000 -> units_of_cp c = [c].
Proof. intros H. unfold units_of_cp. zbool. reflexivity. Qed.

(** Induction over a string one code unit or one pair at a time. *)
Lemma units_ind (P : jsstring -> Prop) :
  P [] ->
  (forall c, P [c]) ->
  (forall c d s, P s -> P (d :: s) -> P (c :: d :: s)) ->
  forall s, P s.
Proof.
  intros Hnil Hone Hstep.
  assert (H : forall s, P s /\ forall c, P (c :: s)).
  { induction s as [|d s [IH1 IH2]]; [by split; [|apply Hone]|].
    split; [apply IH2|]. intros c. by apply Hstep. }
  intros s. apply H.
Qed.

Lemma decode_encode s :
  well_formed s = true -> decode (encode s) = s.
Proof.
  unfold decode. induction s as [|c|c d s IH1 IH2] using units_ind.
  - reflexivity.
  - cbn [well_formed encode]. destruct (is_high c) eqn:Hh; [done|].
    destruct (is_low c) eqn:Hl; [rewrite !andb_false_r; done|].
    intros Hwf.
    apply not_true_iff_false in Hh, Hl.
    rewrite is_high_spec in Hh. rewrite is_low_spec in Hl.
    rewrite decode_enc_cp by (unfold scalar; lia).
    rewrite units_of_bmp by lia. reflexivity.
  - cbn [well_formed encode]. destruct (is_high c) eqn:Hh.
    + destruct (is_low d) eqn:Hl; [|done]. intros Hwf.
      destruct (units_of_pair c d Hh Hl) as [Hsc Hu].
      rewrite decode_enc_cp by done. rewrite Hu.
      cbn [app]. by rewrite IH1.
    + destruct (is_low c) eqn:Hl; [rewrite !andb_false_r; done|].
      intros Hwf.
      apply not_true_iff_false in Hh, Hl.
      rewrite is_high_spec in Hh. rewrite is_low_spec in Hl.
      rewrite decode_enc_cp by (unfold scalar; lia).
      rewrite units_of_bmp by lia. cbn [app]. f_equal.
      apply IH2. apply andb_prop in Hwf. apply Hwf.
Qed.

End Utf8Facts.

(** ** [parseFrame]: what it returns and what it leaves in the buffer *)

Section unmask.
Import Buf.
Local Open Scope nat_scope.

Lemma get_put_below mem P i x K k :
  v_off K + v_len K ≤ v_off P ->
  get (put mem P i x) K k = get mem K k.
Proof.
  unfold get, put, set. intros Hle.
  destruct (k <? v_len K) eqn:Ek; [|done].
  destruct (i <? v_len P); [|done].
  apply Nat.ltb_lt in Ek. apply list_lookup_insert_ne. lia.
Qed.

Lemma length_put mem P i x : length (put mem P i x) = length mem.
Proof. unfold put, set. destruct (i <? v_len P); [apply length_insert|done]. Qed.

Lemma unmask_loop_lookup n : forall i K P mem j,
  v_off K + v_len K ≤ v_off P ->
  v_off P + v_len P ≤ length mem ->
  i + n ≤ v_len P ->
  unmask_loop n i K P mem !! j =
    if bool_decide (v_off P + i ≤ j < v_off P + i + n) then
      (fun b => to_uint8 (Z.lxor b (to_int32 (get mem K ((j - v_off P) mod 4)))))
        <$> mem !! j
    else mem !! j.
Proof.
  induction n as [|n IH]; intros i K P mem j HK HP Hn.
  - cbn [unmask_loop]. rewrite bool_decide_eq_false_2 by lia. done.
  - cbn [unmask_loop]. rewrite IH by (rewrite ?length_put; lia).
    rewrite get_put_below by done.
    assert (Hi : (i <? v_len P) = true) by (apply Nat.ltb_lt; lia).
    unfold put at 1 2. rewrite Hi. unfold set.
    destruct (decide (j = v_off P + i)) as [->|Hne].
    + repeat case_bool_decide. all: try (exfalso; lia). 
      assert (v_off P + i < length mem) by lia.
      rewrite list_lookup_insert_eq by done.
      unfold get at 1. rewrite Hi.
      destruct (lookup_lt_is_Some_2 mem _ H1) as [b Hb].
      rewrite Hb. replace (v_off P + i - v_off P) with i by lia. done.
    + rewrite list_lookup_insert_ne by lia.
      repeat case_bool_decide; try (exfalso; lia); done.
Qed.
End unmask.

Section parse.
Import Buf.
Local Open Scope nat_scope.

Lemma to_int32_byte (l : bytes) i :
  Forall is_byte l -> is_byte (to_int32 (l !! i)).
Proof.
  intros Hl. destruct (l !! i) as [b|] eqn:E; cbn; [|unfold is_byte; lia].
  eapply Forall_lookup_1; eauto.
Qed.

Lemma frame_dataStart_cases buffer :
  frame_dataStart buffer = 2 \/ frame_dataStart buffer = 4
  \/ frame_dataStart buffer = 10.
Proof. unfold frame_dataStart. repeat case_match; auto. Qed.

Lemma xor_mask_length key data : length (xor_mask key data) = length data.
Proof. apply length_imap. Qed.

Lemma xor_mask_bytes key data :
  Forall is_byte key -> Forall is_byte data ->
  Forall is_byte (xor_mask key data).
Proof.
  intros Hk Hd. apply Forall_lookup_2. intros i x.
  unfold xor_mask. rewrite list_lookup_imap.
  destruct (data !! i) as [b|] eqn:E; [|done]. intros [= <-].
  apply lxor_byte; [by eapply Forall_lookup_1|by apply to_int32_byte].
Qed.

Lemma parseFrame_run_spec buffer :
  Forall is_byte buffer ->
  parseFrame_run buffer =
    (Utf8.decode (unmasked buffer (drop (payload_start buffer) buffer)),
     take (payload_start buffer) buffer
       ++ unmasked buffer (drop (payload_start buffer) buffer)).
Proof.
  intros Hb. unfold parseFrame_run, unmasked, payload_start.
  set (ds := frame_dataStart buffer).
  destruct (frame_isMasked buffer).
  2:{ rewrite Nat.add_0_r, take_drop. f_equal. f_equal.
      unfold contents, slice. cbn [v_off v_len].
      rewrite Nat.min_id.
      destruct (Nat.le_gt_cases ds (length buffer)).
      - rewrite Nat.min_l by done. apply take_ge. rewrite length_drop. lia.
      - rewrite Nat.min_r by lia. rewrite !drop_ge by lia. by rewrite take_nil. }
  set (K := slice (length buffer) ds (ds + 4)).
  set (P := slice (length buffer) (ds + 4) (length buffer)).
  set (key := masking_key buffer).
  assert (Hmem : unmask_loop (v_len P) 0 K P buffer
                 = take (ds + 4) buffer ++ xor_mask key (drop (ds + 4) buffer)).
  { apply list_eq. intros j.
    rewrite unmask_loop_lookup; [| subst K P; unfold slice; cbn; lia ..].
    subst K P. unfold slice. cbn [v_off v_len]. rewrite Nat.min_id.
    case_bool_decide as Hj.
    - assert (Hlen : ds + 4 ≤ j < length buffer) by lia.
      rewrite !(Nat.min_l (ds + 4) (length buffer)) by lia.
      rewrite !(Nat.min_l ds (length buffer)) by lia.
      replace (ds + 4 - ds) with 4 by lia.
      rewrite lookup_app_r by (rewrite length_take; lia).
      rewrite length_take, (Nat.min_l (ds + 4) (length buffer)) by lia.
      unfold xor_mask. rewrite list_lookup_imap, lookup_drop.
      replace (ds + 4 + (j - (ds + 4))) with j by lia.
      destruct (buffer !! j) as [b|] eqn:Ej; [|done].
      cbn [fmap option_fmap option_map]. f_equal.
      pose proof (Nat.mod_upper_bound (j - (ds + 4)) 4 ltac:(lia)) as Hm.
      assert (Hk : get buffer (View ds 4) ((j - (ds + 4)) mod 4)
                   = key !! ((j - (ds + 4)) mod 4)).
      { unfold get. cbn [v_off v_len].
        destruct (Nat.ltb_spec ((j - (ds + 4)) mod 4) 4); [|lia].
        subst key. unfold masking_key. fold ds.
        rewrite lookup_take_lt by done. by rewrite lookup_drop. }
      rewrite Hk. apply to_uint8_byte. apply lxor_byte.
      + by eapply Forall_lookup_1.
      + apply to_int32_byte. subst key. unfold masking_key.
        by apply Forall_take, Forall_drop.
    - destruct (Nat.lt_ge_cases j (length buffer)).
      + rewrite lookup_app_l by (rewrite length_take; lia).
        rewrite lookup_take_lt by lia. done.
      + rewrite lookup_ge_None_2 by done. symmetry.
        apply lookup_ge_None_2.
        rewrite length_app, length_take, xor_mask_length, length_drop. lia. }
  rewrite Hmem. f_equal. f_equal.
  unfold contents. subst P. unfold slice. cbn [v_off v_len]. rewrite Nat.min_id.
  destruct (Nat.le_gt_cases (ds + 4) (length buffer)).
  - rewrite Nat.min_l by done.
    rewrite drop_app_length' by (rewrite length_take; lia).
    apply take_ge. rewrite xor_mask_length, length_drop. lia.
  - rewrite Nat.min_r by lia. rewrite Nat.sub_diag, take_0.
    rewrite drop_ge by lia. done.
Qed.
End parse.

(** ** [sendMessage]: the layout of the frame *)

Section build_steps.
Import Buf.

Lemma copy_at (pre zeros post src : bytes) :
  length zeros = length src ->
  copy src (pre ++ zeros ++ post) (length pre) = pre ++ src ++ post.
Proof.
  intros Hlen. unfold copy.
  rewrite <- (Nat.add_0_r (length pre)), list_inserts_app_r.
  by rewrite list_inserts_0_r.
Qed.

Lemma enc_cp_length cp : (1 <= length (Utf8.enc_cp cp) <= 4)%nat.
Proof. unfold Utf8.enc_cp. repeat case_match; cbn; lia. Qed.

Lemma encode_length s : (length (Utf8.encode s) <= 4 * length s)%nat.
Proof.
  induction s as [|c|c d s IH1 IH2] using Utf8Facts.units_ind.
  - cbn. lia.
  - cbn [Utf8.encode]. pose proof (enc_cp_length c).
    pose proof (enc_cp_length Utf8.replacement).
    repeat case_match; rewrite ?length_app; cbn [length]; lia.
  - cbn [Utf8.encode]. cbn [Utf8.encode] in IH2.
    pose proof (enc_cp_length c).
    pose proof (enc_cp_length (Utf8.pair_cp c d)).
    pose proof (enc_cp_length Utf8.replacement).
    repeat case_match; rewrite ?length_app in *; cbn [length] in *; lia.
Qed.

Lemma enc_cp_bytes cp : 0 <= cp < 0x110000 -> Forall is_byte (Utf8.enc_cp cp).
Proof.
  intros H. unfold Utf8.enc_cp, is_byte.
  repeat case_match; repeat constructor; divmod.
Qed.

Lemma encode_bytes s :
  Utf8.well_formed s = true -> Forall is_byte (Utf8.encode s).
Proof.
  induction s as [|c|c d s IH1 IH2] using Utf8Facts.units_ind.
  - constructor.
  - cbn [Utf8.well_formed Utf8.encode].
    destruct (Utf8.is_high c) eqn:Hh; [done|].
    destruct (Utf8.is_low c) eqn:Hl; [rewrite !andb_false_r; done|].
    intros Hwf. rewrite app_nil_r. apply enc_cp_bytes. lia.
  - cbn [Utf8.well_formed Utf8.encode].
    destruct (Utf8.is_high c) eqn:Hh.
    + destruct (Utf8.is_low d) eqn:Hl; [|done]. intros Hwf.
      apply Forall_app. split; [|by apply IH1].
      apply enc_cp_bytes.
      by destruct (Utf8Facts.units_of_pair c d Hh Hl) as [[? _] _].
    + destruct (Utf8.is_low c) eqn:Hl; [rewrite !andb_false_r; done|].
      intros Hwf. apply Forall_app. split; [apply enc_cp_bytes; lia|].
      apply IH2. apply andb_prop in Hwf. apply Hwf.
Qed.

Lemma random_byte_range k : is_random k -> is_byte (random_byte k).
Proof.
  unfold is_random, is_byte, random_byte. intros H.
  assert (0 < random_denominator) by (unfold random_denominator; lia).
  split.
  - apply Z.div_pos; lia.
  - apply Z.div_lt_upper_bound; lia.
Qed.

Lemma fill_mask_drawn rnd :
  (forall i, is_random (rnd i)) ->
  fill_mask 4 0 rnd (alloc 4) = drawn_key rnd.
Proof.
  intros Hr. cbn. unfold drawn_key.
  by rewrite !to_uint8_byte by apply random_byte_range, Hr.
Qed.

Lemma mask_loop_lookup n : forall i key payload j,
  (i + n <= length payload)%nat ->
  mask_loop n i key payload !! j =
    if bool_decide (i <= j < i + n)%nat then
      (fun b => to_uint8 (Z.lxor b (to_int32 (key !! (j mod 4)%nat))))
        <$> payload !! j
    else payload !! j.
Proof.
  induction n as [|n IH]; intros i key payload j Hn.
  - cbn [mask_loop]. rewrite bool_decide_eq_false_2 by lia. done.
  - cbn [mask_loop]. unfold set. rewrite IH by (rewrite length_insert; lia).
    destruct (decide (j = i)) as [->|Hne].
    + repeat case_bool_decide; try (exfalso; lia).
      assert (Hi : (i < length payload)%nat) by lia.
      rewrite list_lookup_insert_eq by done.
      destruct (lookup_lt_is_Some_2 payload _ Hi) as [b Hb].
      by rewrite Hb.
    + rewrite list_lookup_insert_ne by lia.
      repeat case_bool_decide; try (exfalso; lia); done.
Qed.

Lemma mask_loop_spec key payload :
  Forall is_byte key -> Forall is_byte payload ->
  mask_loop (length payload) 0 key payload = xor_mask key payload.
Proof.
  intros Hk Hp. apply list_eq. intros j.
  rewrite mask_loop_lookup by lia. unfold xor_mask.
  rewrite list_lookup_imap.
  destruct (payload !! j) as [b|] eqn:Ej.
  - rewrite bool_decide_eq_true_2
      by (apply lookup_lt_Some in Ej; lia).
    cbn [fmap option_fmap option_map]. f_equal.
    apply to_uint8_byte, lxor_byte;
      [by eapply Forall_lookup_1|by apply to_int32_byte].
  - by case_bool_decide.
Qed.
End build_steps.

Section build.
Import Buf.

Lemma shiftr8_be n : 0 <= n < 65536 ->
  to_uint8 (Z.shiftr n 8) = n / 256 /\ to_uint8 n = n mod 256.
Proof.
  intros H. unfold to_uint8. rewrite Z.shiftr_div_pow2 by lia.
  change (2 ^ 8) with 256. split; [|done]. apply Z.mod_small. divmod.
Qed.

(** The last steps of [buildFrame] on a frame whose length field is
    written: byte 0, then the key and the payload at the end. *)
Lemma finish_client (h key data : bytes) (x : Z) (n : nat) :
  length key = 4%nat -> length data = n ->
  let frame := set (x :: h ++ replicate 4 0 ++ replicate n 0) 0 0x81 in
  let frame' := copy key frame (length frame - n - 4) in
  copy data frame' (length frame' - n) = 0x81 :: h ++ key ++ data.
Proof.
  intros Hk Hd frame frame'.
  assert (Hf : frame = (0x81 :: h) ++ replicate 4 0 ++ replicate n 0) by done.
  assert (Hf' : frame' = ((0x81 :: h) ++ key) ++ replicate n 0 ++ []).
  { subst frame'. rewrite Hf.
    replace (length _ - n - 4)%nat with (length (0x81 :: h)).
    - rewrite copy_at by (by rewrite length_replicate).
      by rewrite app_nil_r, <- app_assoc.
    - rewrite !length_app, !length_replicate. lia. }
  rewrite Hf'.
  replace (length _ - n)%nat with (length ((0x81 :: h) ++ key)).
  - rewrite copy_at by (by rewrite length_replicate).
    by rewrite app_nil_r, <- app_assoc.
  - rewrite !length_app, !length_replicate. cbn [length]. lia.
Qed.

Lemma finish_server (h data : bytes) (x : Z) (n : nat) :
  length data = n ->
  let frame := set (x :: h ++ replicate n 0) 0 0x81 in
  copy data frame (length frame - n) = 0x81 :: h ++ data.
Proof.
  intros Hd frame.
  assert (Hf : frame = (0x81 :: h) ++ replicate n 0 ++ []).
  { by rewrite app_nil_r. }
  rewrite Hf.
  replace (length _ - n)%nat with (length (0x81 :: h)).
  - rewrite copy_at by (by rewrite length_replicate). by rewrite app_nil_r.
  - rewrite !length_app, !length_replicate. cbn [length]. lia.
Qed.

Lemma drawn_key_length rnd : length (drawn_key rnd) = 4%nat.
Proof. done. Qed.

Lemma drawn_key_bytes rnd :
  (forall i, is_random (rnd i)) -> Forall is_byte (drawn_key rnd).
Proof. intros Hr. repeat constructor; apply random_byte_range, Hr. Qed.

Lemma be64_length v : length (be64 v) = 8%nat.
Proof. done. Qed.

Lemma buildFrame_layout isClient rnd m :
  let payload := Utf8.encode m in
  (isClient = true -> (forall i, is_random (rnd i)) /\ Forall is_byte payload) ->
  Z.of_nat (length payload) < 2 ^ 64 ->
  buildFrame isClient rnd m =
    Returned (frame_header isClient (Z.of_nat (length payload))
              ++ (if isClient
                  then drawn_key rnd ++ xor_mask (drawn_key rnd) payload
                  else payload)).
Proof.
  intros payload Hc Hn. unfold buildFrame. fold payload.
  unfold frame_header, length_field.
  destruct (Z.ltb_spec (Z.of_nat (length payload)) 126) as [H1|H1];
    [|destruct (Z.ltb_spec (Z.of_nat (length payload)) 65536) as [H2|H2]].
  - destruct isClient.
    + destruct (Hc eq_refl) as [Hr Hp].
      rewrite fill_mask_drawn by done.
      rewrite mask_loop_spec by (done || by apply drawn_key_bytes).
      cbn [mbind outcome_bind mret outcome_ret]. f_equal.
      etrans; [apply (finish_client [_] (drawn_key rnd) _ 0);
               [done|apply xor_mask_length]|].
      rewrite lor_128, to_uint8_byte by (unfold is_byte; lia). done.
    + cbn [mbind outcome_bind mret outcome_ret]. f_equal.
      etrans; [by apply (finish_server [_] payload 0)|].
      rewrite Z.lor_0_l, to_uint8_byte by (unfold is_byte; lia). done.
  - destruct (shiftr8_be (Z.of_nat (length payload)) ltac:(lia)) as [Ehi Elo].
    unfold writeUInt16BE. zbool.
    rewrite (proj2 (Nat.leb_le _ _))
      by (unfold set, alloc; rewrite length_insert, length_replicate; lia).
    destruct isClient.
    + destruct (Hc eq_refl) as [Hr Hp].
      rewrite fill_mask_drawn by done.
      rewrite mask_loop_spec by (done || by apply drawn_key_bytes).
      cbn [mbind outcome_bind mret outcome_ret andb]. f_equal.
      etrans; [apply (finish_client [_; _; _] (drawn_key rnd) _ 0);
               [done|apply xor_mask_length]|].
      rewrite Ehi, Elo. done.
    + cbn [mbind outcome_bind mret outcome_ret andb]. f_equal.
      etrans; [by apply (finish_server [_; _; _] payload 0)|].
      rewrite Ehi, Elo. done.
  - unfold writeBigUInt64BE. zbool.
    rewrite (proj2 (Nat.leb_le _ _))
      by (unfold set, alloc; rewrite length_insert, length_replicate; lia).
    destruct isClient.
    + destruct (Hc eq_refl) as [Hr Hp].
      rewrite fill_mask_drawn by done.
      rewrite mask_loop_spec by (done || by apply drawn_key_bytes).
      cbn [mbind outcome_bind mret outcome_ret andb]. f_equal.
      etrans; [apply (finish_client (_ :: be64 _) (drawn_key rnd) _ 0);
               [done|apply xor_mask_length]|].
      done.
    + cbn [mbind outcome_bind mret outcome_ret andb]. f_equal.
      etrans; [by apply (finish_server (_ :: be64 _) payload 0)|].
      done.
Qed.
End build.

(** ** Parsing a frame that was built *)

Section roundtrip.
Import Buf.

Lemma xor_mask_involutive key data :
  xor_mask key (xor_mask key data) = data.
Proof.
  apply list_eq. intros i. unfold xor_mask. rewrite !list_lookup_imap.
  destruct (data !! i) as [b|]; [|done]. cbn. by rewrite lxor_cancel.
Qed.

Lemma be64_bytes v : Forall is_byte (be64 v).
Proof.
  unfold be64. apply Forall_fmap, Forall_forall. intros k _. cbn.
  change 255 with (Z.ones 8). rewrite Z.land_ones by lia.
  unfold is_byte. divmod.
Qed.

Lemma frame_header_bytes masked n :
  0 <= n -> Forall is_byte (frame_header masked n).
Proof.
  intros Hn. unfold frame_header, length_field.
  destruct (Z.ltb_spec n 126); [|destruct (Z.ltb_spec n 65536)].
  - destruct masked; repeat constructor; unfold is_byte; lia.
  - destruct masked; repeat constructor; unfold is_byte; try lia; divmod.
  - do 2 (apply Forall_cons; split; [destruct masked; unfold is_byte; lia|]).
    apply be64_bytes.
Qed.

Lemma frame_header_length masked n :
  length (frame_header masked n) =
    if n <? 126 then 2%nat else if n <? 65536 then 4%nat else 10%nat.
Proof.
  unfold frame_header, length_field.
  destruct (n <? 126); [done|]. by destruct (n <? 65536).
Qed.

(** [parseFrame] finds in a header what [frame_header] put there. *)
Lemma parse_header masked n body :
  0 <= n ->
  let frame := frame_header masked n ++ body in
  frame_isMasked frame = masked
  /\ frame_dataStart frame = length (frame_header masked n).
Proof.
  intros Hn frame. subst frame.
  unfold frame_isMasked, frame_dataStart, frame_payloadLength.
  rewrite frame_header_length.
  unfold frame_header, length_field.
  destruct (Z.ltb_spec n 126); [|destruct (Z.ltb_spec n 65536)];
    cbn [app lookup list_lookup to_int32 default from_option id].
  - destruct masked.
    + rewrite land_127, land_128 by lia. zbool.
      replace ((128 + n) mod 128) with n by divmod. zbool. done.
    + rewrite land_127, land_128 by lia. zbool.
      replace ((0 + n) mod 128) with n by divmod. zbool. done.
  - by destruct masked.
  - by destruct masked.
Qed.

Lemma parseFrame_frame masked n key data :
  0 <= n -> length key = 4%nat ->
  Forall is_byte key -> Forall is_byte data ->
  parseFrame (frame_header masked n
              ++ (if masked then key ++ xor_mask key data else data))
  = Returned (Utf8.decode data).
Proof.
  intros Hn Hk Hkb Hdb. unfold parseFrame. f_equal.
  set (body := if masked then _ else _).
  destruct (parse_header masked n body Hn) as [Hm Hs].
  rewrite parseFrame_run_spec.
  2:{ apply Forall_app. split; [by apply frame_header_bytes|].
      subst body. destruct masked; [|done].
      apply Forall_app. split; [done|]. by apply xor_mask_bytes. }
  cbn [fst]. f_equal.
  unfold unmasked, payload_start, masking_key. rewrite Hm, Hs.
  subst body. destruct masked.
  - rewrite drop_app_length.
    rewrite (take_app_length' key) by done.
    rewrite app_assoc, drop_app_length' by (rewrite length_app; lia).
    apply xor_mask_involutive.
  - rewrite Nat.add_0_r. apply drop_app_length.
Qed.
End roundtrip.

(** ** The handshake: SHA-1 and base64 output *)

Section handshake.

Lemma be32_bytes x : Forall is_byte (Sha1.be32 x).
Proof. unfold Sha1.be32. repeat constructor; unfold is_byte; divmod. Qed.

Lemma digest_length msg : length (Sha1.digest msg) = 20%nat.
Proof.
  unfold Sha1.digest.
  by destruct (Sha1.blocks _ _ _) as [[[[h0 h1] h2] h3] h4].
Qed.

Lemma digest_bytes msg : Forall is_byte (Sha1.digest msg).
Proof.
  unfold Sha1.digest.
  destruct (Sha1.blocks _ _ _) as [[[[h0 h1] h2] h3] h4].
  repeat (apply Forall_app; split); apply be32_bytes.
Qed.

Lemma is_char_char i : 0 <= i < 64 -> Base64.is_char (Base64.char i) = true.
Proof.
  apply (range_check (fun i => Base64.is_char (Base64.char i)) 64).
  vm_compute. reflexivity.
Qed.

Lemma triples_ind (P : bytes -> Prop) :
  P [] -> (forall a, P [a]) -> (forall a b, P [a; b]) ->
  (forall a b c l, P l -> P (a :: b :: c :: l)) ->
  forall l, P l.
Proof.
  intros H0 H1 H2 H3.
  assert (H : forall l, P l /\ (forall a, P (a :: l))
                        /\ (forall a b, P (a :: b :: l))).
  { induction l as [|c l (IHa & IHb & IHc)]; [by auto|].
    split; [apply IHb|]. split; [intros a; apply IHc|].
    intros a b. by apply H3. }
  intros l. apply H.
Qed.

Lemma base64_encode_valid bs :
  Forall is_byte bs ->
  Base64.valid (Base64.encode bs) = true
  /\ Z.of_nat (length (Base64.encode bs))
     = 4 * ((Z.of_nat (length bs) + 2) / 3).
Proof.
  unfold is_byte.
  induction bs as [|a|a b|a b c l IH] using triples_ind; intros Hb.
  - done.
  - inversion_clear Hb as [|?? Ha _].
    cbn [Base64.encode Base64.valid].
    rewrite !is_char_char by divmod. done.
  - inversion_clear Hb as [|?? Ha Hb']. inversion_clear Hb' as [|?? Hb _].
    cbn [Base64.encode Base64.valid].
    rewrite !is_char_char by divmod. done.
  - inversion_clear Hb as [|?? Ha Hb']. inversion_clear Hb' as [|?? Hb Hc'].
    inversion_clear Hc' as [|?? Hc Hl]. destruct (IH Hl) as [IHv IHl].
    cbn [Base64.encode app]. split.
    + cbn [Base64.valid]. rewrite !is_char_char by divmod.
      destruct (Base64.encode l); [done|]. by rewrite IHv.
    + cbn [length] in *. divmod.
Qed.

Lemma encode_cons2 c d s :
  Utf8.encode (c :: d :: s) =
    if Utf8.is_high c then
      if Utf8.is_low d
      then Utf8.enc_cp (Utf8.pair_cp c d) ++ Utf8.encode s
      else Utf8.enc_cp Utf8.replacement ++ Utf8.encode (d :: s)
    else if Utf8.is_low c
         then Utf8.enc_cp Utf8.replacement ++ Utf8.encode (d :: s)
         else Utf8.enc_cp c ++ Utf8.encode (d :: s).
Proof. reflexivity. Qed.

Lemma encode_app s t :
  head_not_low t ->
  Utf8.encode (s ++ t) = Utf8.encode s ++ Utf8.encode t.
Proof.
  intros Ht. induction s as [|c|c d s IH1 IH2] using Utf8Facts.units_ind.
  - done.
  - cbn [app Utf8.encode]. rewrite app_nil_r.
    destruct t as [|d t]; [by rewrite !app_nil_r|].
    cbn in Ht. rewrite Ht.
    by destruct (Utf8.is_high c), (Utf8.is_low c); rewrite ?app_nil_r.
  - cbn [app]. rewrite !encode_cons2.
    change (d :: s ++ t) with ((d :: s) ++ t). rewrite IH1, IH2.
    by destruct (Utf8.is_high c), (Utf8.is_low d), (Utf8.is_low c);
      rewrite app_assoc.
Qed.
End handshake.

(** * The claims *)

(** ** The handshake *)

(** C1. For every key string [k], the accept token is the base64 encoding
    of the SHA-1 digest of the UTF-8 bytes of [k] followed by the magic
    GUID (encoded as one string or as two, the bytes are the same); being
    that function of [k] alone, the same key gives the same token. The
    token has exactly 28 characters and is valid base64. *)
Theorem generateAcceptKey_token (k : jsstring) :
  generateAcceptKey (JSString k)
  = Base64.encode (Sha1.digest (Utf8.encode (k ++ magic_guid)))
  /\ Utf8.encode (k ++ magic_guid) = Utf8.encode k ++ Utf8.encode magic_guid
  /\ length (generateAcceptKey (JSString k)) = 28%nat
  /\ Base64.valid (generateAcceptKey (JSString k)) = true.
Proof.
  split; [reflexivity|]. split; [by apply encode_app|].
  unfold generateAcceptKey, hash_digest_base64, hash_update, createHash_sha1.
  cbn [pending app].
  destruct (base64_encode_valid _ (digest_bytes
              (Utf8.encode (js_add (JSString k) magic_guid)))) as [Hv Hl].
  rewrite digest_length in Hl. split; [|done].
  change ((Z.of_nat 20 + 2) / 3) with 7 in Hl. lia.
Qed.

(** C7. The example of RFC 6455: the key "dGhlIHNhbXBsZSBub25jZQ=="
    gives the token "s3pPLMBiTxaQ9kYGzzhZRbK+xOo=". *)
Theorem generateAcceptKey_rfc6455 :
  generateAcceptKey (JSString (lit "dGhlIHNhbXBsZSBub25jZQ=="))
  = lit "s3pPLMBiTxaQ9kYGzzhZRbK+xOo=".
Proof. vm_compute. reflexivity. Qed.

(** C8, as the claim has it, fails: an upgrade request for "/ws" without
    a "sec-websocket-key" header raises nothing. *)
Lemma upgrade_missing_key_no_error :
  header (∅ : gmap string jsstring) "sec-websocket-key" = JSUndefined
  /\ forall e, upgrade (lit "/ws") ∅ <> Thrown e.
Proof. split; [reflexivity|]. intros e. discriminate. Qed.

(** C8, amended. When the key header is missing the handshake goes
    through: the key is [undefined], the token is derived from the string
    "undefined" followed by the magic GUID, and it is sent in the 101
    response. *)
Theorem upgrade_missing_key (headers : gmap string jsstring) :
  headers !! "sec-websocket-key" = None ->
  upgrade (lit "/ws") headers =
    Returned [SocketWrite (join_crlf
      [ lit "HTTP/1.1 101 Switching Protocols";
        lit "Upgrade: websocket";
        lit "Connection: Upgrade";
        lit "Sec-WebSocket-Accept: " ++ generateAcceptKey JSUndefined;
        []; [] ])]
  /\ generateAcceptKey JSUndefined
     = Base64.encode (Sha1.digest (Utf8.encode
         (lit "undefined258EAFA5-E914-47DA-95CA-C5AB0DC85B11")))
  /\ generateAcceptKey JSUndefined = lit "gH2cR3x4MfGXKljgIwL3fMYv0sY=".
Proof.
  intros Hk. split; [|split; [reflexivity|vm_compute; reflexivity]].
  unfold upgrade, header. rewrite Hk. reflexivity.
Qed.

Lemma upgrade_missing_key_witness :
  upgrade (lit "/ws") {[ "host" := lit "localhost:8080" ]} =
    Returned [SocketWrite (join_crlf
      [ lit "HTTP/1.1 101 Switching Protocols";
        lit "Upgrade: websocket";
        lit "Connection: Upgrade";
        lit "Sec-WebSocket-Accept: " ++ generateAcceptKey JSUndefined;
        []; [] ])].
Proof.
  apply (upgrade_missing_key {[ "host" := lit "localhost:8080" ]}).
  reflexivity.
Defined.

(** ** Frames *)


Lemma text_payload m :
  is_text m ->
  Forall is_byte (Utf8.encode m)
  /\ Z.of_nat (length (Utf8.encode m)) < 2 ^ 64.
Proof.
  intros [Hwf Hlen]. split; [by apply encode_bytes|].
  pose proof (encode_length m). lia.
Qed.

Lemma fold_be_nonneg bs : forall acc,
  0 <= acc -> Forall is_byte bs ->
  0 <= fold_left (fun acc b => acc * 256 + b) bs acc.
Proof.
  induction bs as [|b bs IH]; intros acc Hacc Hb; cbn [fold_left]; [done|].
  inversion_clear Hb as [|?? Hb0 Hbs]. apply IH; [|done].
  unfold is_byte in Hb0. lia.
Qed.

Lemma declared_payload_length_nonneg buffer :
  Forall is_byte buffer -> 0 <= declared_payload_length buffer.
Proof.
  intros Hb. unfold declared_payload_length, be_value.
  assert (0 <= frame_payloadLength buffer).
  { unfold frame_payloadLength. apply Z.land_nonneg. lia. }
  repeat case_match; try done;
    apply fold_be_nonneg; try done; by apply Forall_take, Forall_drop.
Qed.

(** What [parseFrame] returns, for any buffer. *)
Lemma parseFrame_returns buffer :
  Forall is_byte buffer ->
  parseFrame buffer =
    Returned (Utf8.decode
      (unmasked buffer (drop (payload_start buffer) buffer))).
Proof.
  intros Hb. unfold parseFrame. by rewrite parseFrame_run_spec.
Qed.

(** C2. For every text message, [parseFrame] applied to the frame
    [sendMessage] writes gives the message back. *)
Theorem sendMessage_parseFrame (rnd : nat -> Z) (m : jsstring) :
  is_text m ->
  exists frame,
    sendMessage rnd m = Returned frame /\ parseFrame frame = Returned m.
Proof.
  intros Ht. destruct (text_payload m Ht) as [Hb Hn].
  eexists. split.
  - unfold sendMessage. by apply buildFrame_layout.
  - cbn [negb]. rewrite (parseFrame_frame false _ [0; 0; 0; 0]); try done.
    + f_equal. apply Utf8Facts.decode_encode, Ht.
    + lia.
    + repeat constructor; unfold is_byte; lia.
Qed.

Lemma sendMessage_parseFrame_witness :
  exists frame,
    sendMessage (fun _ => 0) (lit "repeat after me") = Returned frame
    /\ parseFrame frame = Returned (lit "repeat after me").
Proof.
  apply (sendMessage_parseFrame (fun _ => 0) (lit "repeat after me")).
  split; [reflexivity|]. vm_compute. reflexivity.
Defined.

(** A lone surrogate is not text, and does not come back. *)
Example sendMessage_parseFrame_lone_surrogate :
  sendMessage (fun _ => 0) [0xD800] = Returned [0x81; 3; 0xEF; 0xBF; 0xBD]
  /\ parseFrame [0x81; 3; 0xEF; 0xBF; 0xBD] = Returned [0xFFFD].
Proof. split; reflexivity. Qed.

(** C3, as the claim has it, fails: a header that declares five payload
    bytes followed by one byte is decoded without any error. *)
Lemma parseFrame_truncated_no_error :
  Z.of_nat (length short_frame) < declared_frame_length short_frame
  /\ parseFrame short_frame = Returned (lit "H")
  /\ forall e, parseFrame short_frame <> Thrown e.
Proof. split; [|split]; [vm_compute; reflexivity|reflexivity|discriminate]. Qed.

(** C3, amended. For every buffer shorter than the header plus payload it
    declares, [parseFrame] raises nothing: it returns the text of the bytes
    that are there after the header, unmasked; they are no more than
    declared, and fewer when the header itself is complete. Nothing outside
    the buffer is read. *)
Theorem parseFrame_truncated (buffer : bytes) :
  Forall is_byte buffer ->
  Z.of_nat (length buffer) < declared_frame_length buffer ->
  parseFrame buffer =
    Returned (Utf8.decode
      (unmasked buffer (drop (payload_start buffer) buffer)))
  /\ Z.of_nat (length (drop (payload_start buffer) buffer))
     <= declared_payload_length buffer
  /\ ((payload_start buffer <= length buffer)%nat ->
      Z.of_nat (length (drop (payload_start buffer) buffer))
      < declared_payload_length buffer).
Proof.
  intros Hb Hlt. split; [by apply parseFrame_returns|].
  pose proof (declared_payload_length_nonneg buffer Hb).
  unfold declared_frame_length in Hlt. rewrite length_drop. lia.
Qed.

Lemma parseFrame_truncated_witness :
  parseFrame short_frame =
    Returned (Utf8.decode
      (unmasked short_frame (drop (payload_start short_frame) short_frame)))
  /\ Z.of_nat (length (drop (payload_start short_frame) short_frame))
     <= declared_payload_length short_frame
  /\ ((payload_start short_frame <= length short_frame)%nat ->
      Z.of_nat (length (drop (payload_start short_frame) short_frame))
      < declared_payload_length short_frame).
Proof.
  apply (parseFrame_truncated short_frame).
  - repeat constructor; unfold is_byte; lia.
  - vm_compute. reflexivity.
Defined.

(** C4, as the claim has it, fails: a buffer that holds a complete frame
    of one payload byte and one byte more is decoded to two characters. *)
Lemma parseFrame_trailing_bytes :
  declared_frame_length long_frame <= Z.of_nat (length long_frame)
  /\ frame_payload long_frame = [65]
  /\ parseFrame long_frame = Returned (lit "AB")
  /\ parseFrame long_frame <>
     Returned (Utf8.decode
       (unmasked long_frame (frame_payload long_frame))).
Proof.
  split; [vm_compute; discriminate|].
  split; [reflexivity|]. split; [reflexivity|]. vm_compute. discriminate.
Qed.

(** C4, amended. For every buffer that holds exactly one complete frame
    and nothing after it, [parseFrame] returns the text of the unmasked
    payload of that frame, and the payload has the declared length: the
    seven-bit indicator, or the next two bytes when it is 126, or the next
    eight when it is 127, big-endian. *)
Theorem parseFrame_exact_frame (buffer : bytes) :
  Forall is_byte buffer ->
  Z.of_nat (length buffer) = declared_frame_length buffer ->
  parseFrame buffer =
    Returned (Utf8.decode (unmasked buffer (frame_payload buffer)))
  /\ Z.of_nat (length (frame_payload buffer))
     = declared_payload_length buffer.
Proof.
  intros Hb Hlen.
  pose proof (declared_payload_length_nonneg buffer Hb) as Hnn.
  unfold declared_frame_length in Hlen.
  assert (Hp : frame_payload buffer = drop (payload_start buffer) buffer).
  { unfold frame_payload. apply take_ge. rewrite length_drop. lia. }
  rewrite Hp. split; [by apply parseFrame_returns|].
  rewrite length_drop. lia.
Qed.

Lemma parseFrame_exact_frame_witness :
  parseFrame hello_frame =
    Returned (Utf8.decode (unmasked hello_frame (frame_payload hello_frame)))
  /\ Z.of_nat (length (frame_payload hello_frame))
     = declared_payload_length hello_frame.
Proof.
  apply (parseFrame_exact_frame hello_frame).
  - repeat constructor; unfold is_byte; lia.
  - vm_compute. reflexivity.
Defined.

(** C6. A payload of exactly 125 bytes gives a one-byte length field 125
    and nothing between it and the rest of the frame; 126 bytes give the
    indicator 126 and the two bytes 0, 126; 65536 bytes give the indicator
    127 and the eight bytes 0, 0, 0, 0, 0, 1, 0, 0. The rest of the frame
    is the masking key, if any, and the payload. *)
Theorem buildFrame_length_classes (isClient : bool) (rnd : nat -> Z)
    (m : jsstring) :
  (isClient = true ->
   (forall i, is_random (rnd i)) /\ Forall is_byte (Utf8.encode m)) ->
  let n := Z.of_nat (length (Utf8.encode m)) in
  let flag := if isClient then 0x80 else 0 in
  let rest := if isClient
              then drawn_key rnd ++ xor_mask (drawn_key rnd) (Utf8.encode m)
              else Utf8.encode m in
  (n = 125 ->
   buildFrame isClient rnd m = Returned ([0x81; flag + 125] ++ rest))
  /\ (n = 126 ->
      buildFrame isClient rnd m
      = Returned ([0x81; flag + 126] ++ [0; 126] ++ rest)
      /\ be_value [0; 126] = 126)
  /\ (n = 65536 ->
      buildFrame isClient rnd m
      = Returned ([0x81; flag + 127] ++ [0; 0; 0; 0; 0; 1; 0; 0] ++ rest)
      /\ be_value [0; 0; 0; 0; 0; 1; 0; 0] = 65536).
Proof.
  intros Hc n flag rest.
  split; [|split]; intros Hn; (try split); try reflexivity;
    rewrite buildFrame_layout by (done || fold n; lia);
    fold n; rewrite Hn; by destruct isClient.
Qed.

Lemma buildFrame_length_classes_witness :
  buildFrame false (fun _ => 0) (a_times 125)
  = Returned ([0x81; 0 + 125] ++ Utf8.encode (a_times 125))
  /\ buildFrame false (fun _ => 0) (a_times 126)
     = Returned ([0x81; 0 + 126] ++ [0; 126] ++ Utf8.encode (a_times 126))
  /\ buildFrame false (fun _ => 0) (a_times 65536)
     = Returned ([0x81; 0 + 127] ++ [0; 0; 0; 0; 0; 1; 0; 0]
                 ++ Utf8.encode (a_times 65536)).
Proof.
  assert (H1 : Z.of_nat (length (Utf8.encode (a_times 125))) = 125)
    by (vm_compute; reflexivity).
  assert (H2 : Z.of_nat (length (Utf8.encode (a_times 126))) = 126)
    by (vm_compute; reflexivity).
  assert (H3 : Z.of_nat (length (Utf8.encode (a_times 65536))) = 65536)
    by (vm_compute; reflexivity).
  split; [|split].
  - exact (proj1 (buildFrame_length_classes false (fun _ => 0) (a_times 125)
                    ltac:(discriminate)) H1).
  - exact (proj1 (proj1 (proj2 (buildFrame_length_classes false (fun _ => 0)
                    (a_times 126) ltac:(discriminate))) H2)).
  - exact (proj1 (proj2 (proj2 (buildFrame_length_classes false (fun _ => 0)
                    (a_times 65536) ltac:(discriminate))) H3)).
Defined.

Lemma frame_header_unmasked_bit n body :
  0 <= n ->
  Z.land (to_int32 ((frame_header false n ++ body) !! 1%nat)) 0x80 = 0.
Proof.
  intros Hn. unfold frame_header, length_field.
  destruct (Z.ltb_spec n 126); [|destruct (Z.ltb_spec n 65536)];
    cbn [app lookup list_lookup to_int32 default from_option id]; [|done..].
  rewrite land_128 by lia. by zbool.
Qed.

(** C9. [isClient] is the constant [false]: for every message the frame
    [sendMessage] writes has the top bit of its second byte clear, is the
    header followed by the payload bytes as they are, with no masking key
    between them (its length is the header's plus the payload's), and does
    not depend on [Math.random]. *)
Theorem sendMessage_unmasked (rnd : nat -> Z) (m : jsstring) :
  Z.of_nat (length m) < 2 ^ 53 ->
  let payload := Utf8.encode m in
  let n := Z.of_nat (length payload) in
  exists frame,
    sendMessage rnd m = Returned frame
    /\ Z.land (to_int32 (frame !! 1%nat)) 0x80 = 0
    /\ frame = frame_header false n ++ payload
    /\ length frame = (length (frame_header false n) + length payload)%nat
    /\ length (frame_header false n)
       = (if n <? 126 then 2%nat else if n <? 65536 then 4%nat else 10%nat)
    /\ forall rnd', sendMessage rnd' m = Returned frame.
Proof.
  intros Hlen payload n.
  assert (Hn : n < 2 ^ 64).
  { pose proof (encode_length m). subst n payload. lia. }
  assert (Hb : forall r, sendMessage r m
                         = Returned (frame_header false n ++ payload)).
  { intros r. unfold sendMessage. by rewrite buildFrame_layout. }
  exists (frame_header false n ++ payload).
  split; [apply Hb|]. split; [apply frame_header_unmasked_bit; lia|].
  split; [done|]. split; [apply length_app|].
  split; [apply frame_header_length|done].
Qed.

Lemma sendMessage_unmasked_witness :
  let payload := Utf8.encode (lit "repeat after me") in
  let n := Z.of_nat (length payload) in
  exists frame,
    sendMessage (fun _ => 0) (lit "repeat after me") = Returned frame
    /\ Z.land (to_int32 (frame !! 1%nat)) 0x80 = 0
    /\ frame = frame_header false n ++ payload
    /\ length frame = (length (frame_header false n) + length payload)%nat
    /\ length (frame_header false n)
       = (if n <? 126 then 2%nat else if n <? 65536 then 4%nat else 10%nat)
    /\ forall rnd', sendMessage rnd' (lit "repeat after me") = Returned frame.
Proof.
  apply (sendMessage_unmasked (fun _ => 0) (lit "repeat after me")).
  vm_compute. reflexivity.
Defined.




(** The masked frame of the witness is the masked "Hello" of RFC 6455. *)
Example masked_hello_is_rfc :
  frame_header true 5 ++ [0x37; 0xfa; 0x21; 0x3d]
    ++ xor_mask [0x37; 0xfa; 0x21; 0x3d] (Utf8.encode (lit "Hello"))
  = hello_frame.
Proof. reflexivity. Qed.

(** C10. When the MASK flag of the frame is set, [parseFrame] changes the
    buffer it is given: afterwards every byte from the start of the payload
    on is the original byte XOR the masking key byte of its position modulo
    four, and every byte before the payload is as it was. The length of the
    buffer does not change. *)
Theorem parseFrame_unmasks_in_place (buffer : bytes) :
  Forall is_byte buffer ->
  Z.land (to_int32 (buffer !! 1%nat)) 128 = 128 ->
  let start := payload_start buffer in
  parseFrame_buffer buffer
  = take start buffer ++ xor_mask (masking_key buffer) (drop start buffer)
  /\ take start (parseFrame_buffer buffer) = take start buffer
  /\ length (parseFrame_buffer buffer) = length buffer
  /\ (forall i b,
        buffer !! (start + i)%nat = Some b ->
        parseFrame_buffer buffer !! (start + i)%nat
        = Some (Z.lxor b (to_int32 (masking_key buffer !! (i mod 4)%nat)))).
Proof.
  intros Hb Hm start.
  assert (Hmask : frame_isMasked buffer = true)
    by (unfold frame_isMasked; by apply Z.eqb_eq).
  assert (Heq : parseFrame_buffer buffer
                = take start buffer
                  ++ xor_mask (masking_key buffer) (drop start buffer)).
  { unfold parseFrame_buffer. rewrite parseFrame_run_spec by done.
    cbn [snd]. unfold unmasked. by rewrite Hmask. }
  split; [done|]. rewrite Heq. split; [|split].
  - destruct (Nat.le_gt_cases start (length buffer)).
    + by rewrite take_app_length' by (rewrite length_take; lia).
    + rewrite drop_ge by lia. by rewrite app_nil_r, take_take, Nat.min_id.
  - rewrite length_app, length_take, xor_mask_length, length_drop. lia.
  - intros i b Hi. pose proof (lookup_lt_Some _ _ _ Hi).
    rewrite lookup_app_r by (rewrite length_take; lia).
    rewrite length_take, Nat.min_l by lia.
    replace (start + i - start)%nat with i by lia.
    unfold xor_mask. rewrite list_lookup_imap, lookup_drop, Hi. done.
Qed.

Lemma parseFrame_unmasks_in_place_witness :
  parseFrame_buffer hello_frame
  = take (payload_start hello_frame) hello_frame
    ++ xor_mask (masking_key hello_frame)
                (drop (payload_start hello_frame) hello_frame).
Proof.
  apply (parseFrame_unmasks_in_place hello_frame).
  - repeat constructor; unfold is_byte; lia.
  - reflexivity.
Defined.

(** The buffer of the witness after the call: the payload now reads
    "Hello". *)
Example parseFrame_buffer_hello :
  parseFrame_buffer hello_frame
  = [0x81; 0x85; 0x37; 0xfa; 0x21; 0x3d; 72; 101; 108; 108; 111]
  /\ parseFrame_buffer hello_frame <> hello_frame.
Proof. split; [reflexivity|discriminate]. Qed.

(** * Further properties of the handlers and the codec *)

Lemma be_value_2 a b : be_value [a; b] = a * 256 + b.
Proof. reflexivity. Qed.

Lemma be_value_be64 n : 0 <= n < 2 ^ 64 -> be_value (Buf.be64 n) = n.
Proof.
  intros Hn. unfold Buf.be64, be_value.
  cbn [fmap list_fmap seq fold_left].
  change 255 with (Z.ones 8). rewrite !Z.land_ones by lia.
  rewrite !Z.shiftr_div_pow2 by lia.
  cbn [Z.of_nat Pos.of_succ_nat Pos.succ Z.sub Z.mul Z.add Z.opp Z.pos_sub
       Pos.mul Pos.add Pos.pred_double Z.succ_double Z.pred_double Z.double].
  divmod.
Qed.

(** The length a header declares is the length it was built for. *)
Lemma declared_of_header masked n body :
  0 <= n < 2 ^ 64 ->
  declared_payload_length (frame_header masked n ++ body) = n.
Proof.
  intros Hn. unfold declared_payload_length, frame_payloadLength.
  unfold frame_header, length_field.
  destruct (Z.ltb_spec n 126); [|destruct (Z.ltb_spec n 65536)];
    cbn [app lookup list_lookup to_int32 default from_option id].
  - rewrite land_127 by (destruct masked; lia).
    replace (((if masked then 128 else 0) + n) mod 128) with n
      by (destruct masked; divmod).
    by zbool.
  - replace (Z.land ((if masked then 128 else 0) + 126) 127) with 126
      by (by destruct masked).
    cbn [Z.eqb Pos.eqb drop take]. rewrite be_value_2. divmod.
  - replace (Z.land ((if masked then 128 else 0) + 127) 127) with 127
      by (by destruct masked).
    cbn [Z.eqb Pos.eqb drop].
    rewrite drop_0, (take_app_length' (Buf.be64 n)) by done.
    by apply be_value_be64.
Qed.

(** X1. Every frame [buildFrame] makes is one complete frame of the
    protocol: it starts with 0x81, the payload length its header declares
    is the number of payload bytes, and header plus declared payload is the
    whole frame. *)
Theorem buildFrame_declares_its_length (isClient : bool) (rnd : nat -> Z)
    (m : jsstring) :
  Z.of_nat (length m) < 2 ^ 53 ->
  (isClient = true ->
   (forall i, is_random (rnd i)) /\ Forall is_byte (Utf8.encode m)) ->
  exists frame,
    buildFrame isClient rnd m = Returned frame
    /\ frame !! 0%nat = Some 0x81
    /\ frame_isMasked frame = isClient
    /\ declared_payload_length frame = Z.of_nat (length (Utf8.encode m))
    /\ declared_frame_length frame = Z.of_nat (length frame).
Proof.
  intros Hlen Hc.
  set (payload := Utf8.encode m). set (n := Z.of_nat (length payload)).
  assert (Hn : 0 <= n < 2 ^ 64).
  { pose proof (encode_length m). subst n payload. lia. }
  set (rest := if isClient
               then drawn_key rnd ++ xor_mask (drawn_key rnd) payload
               else payload).
  exists (frame_header isClient n ++ rest).
  destruct (parse_header isClient n rest ltac:(lia)) as [Hm Hs].
  pose proof (declared_of_header isClient n rest Hn) as Hd.
  split; [apply buildFrame_layout; [done|subst n payload; lia]|].
  split.
  { unfold frame_header, length_field. by repeat case_match. }
  split; [done|]. split; [done|].
  unfold declared_frame_length, payload_start. rewrite Hm, Hs, Hd.
  rewrite length_app. subst rest n.
  destruct isClient;
    rewrite ?length_app, ?xor_mask_length, ?drawn_key_length; lia.
Qed.

Lemma buildFrame_declares_its_length_witness :
  exists frame,
    buildFrame false (fun _ => 0) (a_times 300) = Returned frame
    /\ frame !! 0%nat = Some 0x81
    /\ frame_isMasked frame = false
    /\ declared_payload_length frame
       = Z.of_nat (length (Utf8.encode (a_times 300)))
    /\ declared_frame_length frame = Z.of_nat (length frame).
Proof.
  apply (buildFrame_declares_its_length false (fun _ => 0) (a_times 300)).
  - vm_compute. reflexivity.
  - discriminate.
Defined.

(** X2. A buffer that ends before the payload starts (the empty buffer, a
    single byte, a header and nothing else) is decoded to the empty string
    and left as it is. *)
Theorem parseFrame_no_payload (buffer : bytes) :
  Forall is_byte buffer ->
  (length buffer <= payload_start buffer)%nat ->
  parseFrame buffer = Returned [] /\ parseFrame_buffer buffer = buffer.
Proof.
  intros Hb Hlen. unfold parseFrame, parseFrame_buffer.
  rewrite parseFrame_run_spec by done. cbn [fst snd].
  rewrite drop_ge, take_ge by lia.
  assert (Hu : unmasked buffer [] = []) by (unfold unmasked; by case_match).
  rewrite Hu. by rewrite app_nil_r.
Qed.

Lemma parseFrame_no_payload_witness :
  parseFrame [0x81] = Returned [] /\ parseFrame_buffer [0x81] = [0x81].
Proof.
  apply (parseFrame_no_payload [0x81]).
  - repeat constructor; unfold is_byte; lia.
  - vm_compute. lia.
Defined.

(** X3. When the MASK flag is clear the buffer is left as it is, and the text
    is decoded from every byte after the length field. *)
Theorem parseFrame_unmasked_reads_only (buffer : bytes) :
  Z.land (to_int32 (buffer !! 1%nat)) 128 <> 128 ->
  parseFrame_buffer buffer = buffer
  /\ parseFrame buffer
     = Returned (Utf8.decode (drop (frame_dataStart buffer) buffer)).
Proof.
  intros Hm.
  assert (Hmask : frame_isMasked buffer = false)
    by (unfold frame_isMasked; by apply Z.eqb_neq).
  unfold parseFrame, parseFrame_buffer, parseFrame_run. rewrite Hmask.
  cbn [fst snd]. split; [done|]. do 2 f_equal.
  unfold Buf.contents, Buf.slice. cbn [Buf.v_off Buf.v_len].
  rewrite Nat.add_0_r, Nat.min_id.
  destruct (Nat.le_gt_cases (frame_dataStart buffer) (length buffer)).
  - rewrite Nat.min_l by done. apply take_ge. rewrite length_drop. lia.
  - rewrite Nat.min_r by lia. rewrite !drop_ge by lia. by rewrite take_nil.
Qed.

Lemma parseFrame_unmasked_reads_only_witness :
  parseFrame_buffer long_frame = long_frame
  /\ parseFrame long_frame
     = Returned (Utf8.decode (drop (frame_dataStart long_frame) long_frame)).
Proof. apply (parseFrame_unmasked_reads_only long_frame). discriminate. Defined.

(** The header fields depend on the second byte only. *)
Lemma header_fields_second_byte (b b' : bytes) :
  b !! 1%nat = b' !! 1%nat ->
  frame_isMasked b = frame_isMasked b'
  /\ frame_dataStart b = frame_dataStart b'
  /\ payload_start b = payload_start b'.
Proof.
  intros H. unfold payload_start, frame_dataStart, frame_payloadLength,
    frame_isMasked. by rewrite H.
Qed.

(** X4. The first byte (FIN, reserved bits, opcode) plays no part: two
    buffers that differ only there are decoded to the same text. *)
Theorem parseFrame_ignores_first_byte (b0 b0' : Z) (rest : bytes) :
  is_byte b0 -> is_byte b0' -> Forall is_byte rest ->
  parseFrame (b0 :: rest) = parseFrame (b0' :: rest).
Proof.
  intros H0 H0' Hr.
  rewrite !parseFrame_returns by (by constructor).
  destruct (header_fields_second_byte (b0 :: rest) (b0' :: rest) eq_refl)
    as (Hm & Hs & Hp).
  unfold unmasked, masking_key. rewrite Hm, Hs, Hp.
  unfold payload_start.
  destruct (frame_dataStart_cases (b0' :: rest)) as [-> | [-> | ->]];
    by destruct (frame_isMasked (b0' :: rest)).
Qed.

Lemma parseFrame_ignores_first_byte_witness :
  parseFrame (0x81 :: [0x85; 0x37; 0xfa; 0x21; 0x3d;
                       0x7f; 0x9f; 0x4d; 0x51; 0x58])
  = parseFrame (0x88 :: [0x85; 0x37; 0xfa; 0x21; 0x3d;
                         0x7f; 0x9f; 0x4d; 0x51; 0x58]).
Proof.
  apply parseFrame_ignores_first_byte;
    repeat constructor; unfold is_byte; lia.
Defined.

(** X5. The length a header declares is never compared with what follows:
    whatever length [n] the header was built for, every byte after it (and
    after the masking key) is decoded. *)
Theorem parseFrame_ignores_declared_length (masked : bool) (n : Z)
    (key rest : bytes) :
  0 <= n -> length key = 4%nat ->
  Forall is_byte key -> Forall is_byte rest ->
  parseFrame (frame_header masked n ++ (if masked then key ++ rest else rest))
  = Returned (Utf8.decode (if masked then xor_mask key rest else rest)).
Proof.
  intros Hn Hk Hkb Hrb.
  destruct masked.
  - rewrite <- (xor_mask_involutive key rest) at 1.
    apply (parseFrame_frame true n key (xor_mask key rest)); try done.
    by apply xor_mask_bytes.
  - by apply (parseFrame_frame false n key rest).
Qed.

Lemma parseFrame_ignores_declared_length_witness :
  parseFrame (frame_header false 1 ++ [65; 66; 67])
  = Returned (Utf8.decode [65; 66; 67]).
Proof.
  apply (parseFrame_ignores_declared_length false 1 [0; 0; 0; 0] [65; 66; 67]);
    try lia; try reflexivity; repeat constructor; unfold is_byte; lia.
Defined.

(** X6. Parsing the same buffer twice restores it: the second call masks
    the payload again, so it returns the text of the bytes as they came
    in, still masked, and not the message. *)
Theorem parseFrame_twice (buffer : bytes) :
  Forall is_byte buffer ->
  parseFrame_buffer (parseFrame_buffer buffer) = buffer
  /\ (frame_isMasked buffer = true ->
      parseFrame (parseFrame_buffer buffer)
      = Returned (Utf8.decode (drop (payload_start buffer) buffer))).
Proof.
  intros Hb.
  set (start := payload_start buffer).
  set (after := take start buffer ++ unmasked buffer (drop start buffer)).
  assert (Hafter : parseFrame_buffer buffer = after).
  { unfold parseFrame_buffer. by rewrite parseFrame_run_spec. }
  destruct (Nat.le_gt_cases start (length buffer)) as [Hle|Hgt].
  2:{ assert (Hsame : after = buffer).
      { subst after. rewrite drop_ge, take_ge by lia.
        assert (Hu : unmasked buffer [] = [])
          by (unfold unmasked; by case_match).
        by rewrite Hu, app_nil_r. }
      rewrite Hafter, Hsame. split.
      - unfold parseFrame_buffer. rewrite parseFrame_run_spec by done.
        cbn [snd]. fold start. fold after. done.
      - intros Hm. rewrite parseFrame_returns by done. fold start.
        rewrite drop_ge by lia.
        assert (Hu : unmasked buffer [] = [])
          by (unfold unmasked; by case_match).
        by rewrite Hu. }
  assert (Hstart2 : (2 <= start)%nat).
  { subst start. unfold payload_start.
    destruct (frame_dataStart_cases buffer) as [-> | [-> | ->]]; lia. }
  assert (Hbytes : Forall is_byte after).
  { subst after. apply Forall_app. split; [by apply Forall_take|].
    unfold unmasked. case_match; [|by apply Forall_drop].
    apply xor_mask_bytes; [|by apply Forall_drop].
    unfold masking_key. by apply Forall_take, Forall_drop. }
  assert (Hsec : after !! 1%nat = buffer !! 1%nat).
  { subst after. rewrite lookup_app_l by (rewrite length_take; lia).
    apply lookup_take_lt. lia. }
  destruct (header_fields_second_byte after buffer Hsec) as (Hm & Hs & Hp).
  assert (Hdrop : drop start after = unmasked buffer (drop start buffer)).
  { subst after. apply drop_app_length'. rewrite length_take. lia. }
  assert (Htake : take start after = take start buffer).
  { subst after. rewrite take_app_length' by (rewrite length_take; lia).
    done. }
  assert (Hkey : frame_isMasked buffer = true ->
                 masking_key after = masking_key buffer).
  { intros Hmask. unfold masking_key. rewrite Hs.
    assert (Hds : (frame_dataStart buffer + 4 = start)%nat)
      by (subst start; unfold payload_start; by rewrite Hmask).
    rewrite !take_drop_commute, Hds, Htake. done. }
  assert (Hback : unmasked after (unmasked buffer (drop start buffer))
                  = drop start buffer).
  { unfold unmasked. rewrite Hm.
    destruct (frame_isMasked buffer) eqn:Hmask; [|done].
    rewrite Hkey by done. apply xor_mask_involutive. }
  rewrite Hafter. split.
  - unfold parseFrame_buffer. rewrite parseFrame_run_spec by done.
    cbn [snd]. rewrite Hp. fold start.
    rewrite Hdrop, Htake, Hback. apply take_drop.
  - intros _. rewrite parseFrame_returns by done. rewrite Hp. fold start.
    by rewrite Hdrop, Hback.
Qed.

Lemma parseFrame_twice_witness :
  parseFrame_buffer (parseFrame_buffer hello_frame) = hello_frame
  /\ (frame_isMasked hello_frame = true ->
      parseFrame (parseFrame_buffer hello_frame)
      = Returned (Utf8.decode
                    (drop (payload_start hello_frame) hello_frame))).
Proof.
  apply (parseFrame_twice hello_frame).
  repeat constructor; unfold is_byte; lia.
Defined.

(** The second parse of the RFC frame does not read "Hello". *)
Example parseFrame_twice_hello :
  parseFrame hello_frame = Returned (lit "Hello")
  /\ parseFrame (parseFrame_buffer hello_frame) <> Returned (lit "Hello").
Proof. split; [reflexivity|vm_compute; discriminate]. Qed.

(** The token has the shape of a base64 SHA-1 digest whatever the key
    value is. *)
Lemma accept_token_shape (v : jsvalue) :
  length (generateAcceptKey v) = 28%nat
  /\ Base64.valid (generateAcceptKey v) = true.
Proof.
  unfold generateAcceptKey, hash_digest_base64.
  set (data := pending _).
  destruct (base64_encode_valid _ (digest_bytes data)) as [Hv Hl].
  rewrite digest_length in Hl. split; [|done].
  change ((Z.of_nat 20 + 2) / 3) with 7 in Hl. lia.
Qed.

(** X7. The upgrade handler never raises. A request for another path than
    "/ws" gets the 404 line and the socket is destroyed, with no handshake.
    A request for "/ws" gets one write: the 101 response, whose last header
    is the accept token of the key header, 28 characters of base64,
    followed by the empty line that ends the headers. *)
Theorem upgrade_response (url : jsstring) (headers : gmap string jsstring) :
  (url <> lit "/ws" ->
   upgrade url headers
   = Returned [SocketWrite (lit "HTTP/1.1 404 Not Found" ++ crlf ++ crlf);
               SocketDestroy])
  /\ (url = lit "/ws" ->
      exists token,
        upgrade url headers
        = Returned [SocketWrite
            (lit "HTTP/1.1 101 Switching Protocols" ++ crlf
             ++ lit "Upgrade: websocket" ++ crlf
             ++ lit "Connection: Upgrade" ++ crlf
             ++ lit "Sec-WebSocket-Accept: " ++ token ++ crlf ++ crlf)]
        /\ token = generateAcceptKey (header headers "sec-websocket-key")
        /\ length token = 28%nat
        /\ Base64.valid token = true).
Proof.
  split.
  - intros Hne. unfold upgrade. by rewrite bool_decide_eq_false_2.
  - intros ->. exists (generateAcceptKey (header headers "sec-websocket-key")).
    split; [|split; [done|apply accept_token_shape]].
    unfold upgrade. rewrite bool_decide_eq_true_2 by done.
    cbn [join_crlf]. by rewrite <- !app_assoc.
Qed.

(** X8. Whatever arrives on the socket, the "data" listener answers with
    the same six bytes, the unmasked frame of "test": the reply depends
    neither on the received bytes nor on [Math.random]. What it logs is the
    text [parseFrame] returns, and the received buffer is left as
    [parseFrame] leaves it. *)
Theorem on_data_reply (rnd : nat -> Z) (data : bytes) :
  Forall is_byte data ->
  on_data rnd data
  = Returned (Utf8.decode (unmasked data (drop (payload_start data) data)),
              [0x81; 4; 116; 101; 115; 116],
              take (payload_start data) data
                ++ unmasked data (drop (payload_start data) data))
  /\ parseFrame [0x81; 4; 116; 101; 115; 116] = Returned (lit "test").
Proof.
  intros Hb. split; [|reflexivity].
  unfold on_data. by rewrite parseFrame_run_spec.
Qed.

Lemma on_data_reply_witness :
  on_data (fun _ => 0) hello_frame
  = Returned (Utf8.decode (unmasked hello_frame
                (drop (payload_start hello_frame) hello_frame)),
              [0x81; 4; 116; 101; 115; 116],
              take (payload_start hello_frame) hello_frame
                ++ unmasked hello_frame
                     (drop (payload_start hello_frame) hello_frame))
  /\ parseFrame [0x81; 4; 116; 101; 115; 116] = Returned (lit "test").
Proof.
  apply (on_data_reply (fun _ => 0) hello_frame).
  repeat constructor; unfold is_byte; lia.
Defined.

(** X9. [parseFrame] reads every single text frame of the protocol, masked
    with any key or not masked, in each of the three length classes: the
    header for the payload length, the key if masked, and the UTF-8 bytes
    of the message XOR the key give the message back. *)
Theorem parseFrame_conforming_frame (masked : bool) (key : bytes)
    (m : jsstring) :
  is_text m -> length key = 4%nat -> Forall is_byte key ->
  let payload := Utf8.encode m in
  parseFrame (frame_header masked (Z.of_nat (length payload))
              ++ (if masked then key ++ xor_mask key payload else payload))
  = Returned m.
Proof.
  intros Ht Hk Hkb payload.
  destruct (text_payload m Ht) as [Hb _].
  rewrite parseFrame_frame by (done || lia).
  f_equal. apply Utf8Facts.decode_encode, Ht.
Qed.

Lemma parseFrame_conforming_frame_witness :
  parseFrame
    (frame_header true (Z.of_nat (length (Utf8.encode (lit "Hello"))))
     ++ [0x37; 0xfa; 0x21; 0x3d]
     ++ xor_mask [0x37; 0xfa; 0x21; 0x3d] (Utf8.encode (lit "Hello")))
  = Returned (lit "Hello").
Proof.
  apply (parseFrame_conforming_frame true [0x37; 0xfa; 0x21; 0x3d]
           (lit "Hello")).
  - split; [reflexivity|]. vm_compute. reflexivity.
  - reflexivity.
  - repeat constructor; unfold is_byte; lia.
Defined.
